(** * target_stitch_petlove: the streaming batch processor

    A shallow embedding of [src/target_stitch_petlove/__init__.py]
    ([persist_lines], [post_data], [emit_state] and the tail of [main])
    together with the properties of the batching, sequence-number and
    checkpoint logic.

    Conventions.
    - Python [int] is [Z]; Python [str] is [string], holding the UTF-8
      bytes of the text.
    - Python [None] and JSON [null] are the same value, [JNull].
    - The function body runs in a state-and-exception monad over the
      local variables of [persist_lines] and the outside world (clock,
      HTTP endpoint, standard output).  An exception keeps the state it
      was raised in, so that what had happened before the raise can be
      inspected. *)

From Stdlib Require Import ZArith Ascii String List Lia Bool Sorted.
From stdpp Require Import base option list gmap strings countable.

Local Open Scope Z_scope.
Local Open Scope string_scope.
Local Open Scope list_scope.

(** ** JSON values, as [json.loads] returns them *)

Module Json.

#[warnings="-register-all"]
Inductive json : Type :=
| JNull
| JBool (b : bool)
| JInt (n : Z)
| JFloat (lit : string)      (* the literal, kept as written *)
| JString (s : string)
| JArray (l : list json)
| JObject (d : list (string * json)).

(** Python dict operations on an object's pairs.  Keys are unique: the
    decoder builds every object with [dict_set]. *)
Fixpoint dict_get (k : string) (d : list (string * json)) : option json :=
  match d with
  | [] => None
  | (k', v) :: d' => if String.eqb k k' then Some v else dict_get k d'
  end.

Fixpoint dict_set (k : string) (v : json) (d : list (string * json))
  : list (string * json) :=
  match d with
  | [] => [(k, v)]
  | (k', v') :: d' =>
      if String.eqb k k' then (k, v) :: d' else (k', v') :: dict_set k v d'
  end.

Definition dict_in (k : string) (d : list (string * json)) : bool :=
  match dict_get k d with Some _ => true | None => false end.

(** *** Lexical analysis *)

Inductive token : Type :=
| TLBrace | TRBrace | TLBrack | TRBrack | TColon | TComma
| TStr (s : list ascii)
| TNum (lit : list ascii)
| TWord (w : list ascii).

Definition code (c : ascii) : N := N_of_ascii c.

(** The whitespace [json] skips: space, tab, line feed, carriage return. *)
Definition is_json_ws (c : ascii) : bool :=
  let n := code c in
  (n =? 32)%N || (n =? 9)%N || (n =? 10)%N || (n =? 13)%N.

Definition is_digit (c : ascii) : bool :=
  let n := code c in (48 <=? n)%N && (n <=? 57)%N.

Definition is_letter (c : ascii) : bool :=
  let n := code c in
  ((65 <=? n)%N && (n <=? 90)%N) || ((97 <=? n)%N && (n <=? 122)%N).

(** Characters a number literal is made of. *)
Definition is_num_char (c : ascii) : bool :=
  is_digit c
  || (code c =? 45)%N || (code c =? 43)%N || (code c =? 46)%N
  || (code c =? 101)%N || (code c =? 69)%N.

Definition hex_val (c : ascii) : option N :=
  let n := code c in
  if (48 <=? n)%N && (n <=? 57)%N then Some (n - 48)%N
  else if (97 <=? n)%N && (n <=? 102)%N then Some (n - 87)%N
  else if (65 <=? n)%N && (n <=? 70)%N then Some (n - 55)%N
  else None.

Definition byte (n : N) : ascii := ascii_of_N n.

(** UTF-8 bytes of a code point (a lone surrogate is written with the
    same three-byte pattern). *)
Definition utf8 (n : N) : list ascii :=
  if (n <? 128)%N then [byte n]
  else if (n <? 2048)%N then
    [byte (192 + n / 64); byte (128 + n mod 64)]
  else if (n <? 65536)%N then
    [byte (224 + n / 4096); byte (128 + (n / 64) mod 64);
     byte (128 + n mod 64)]
  else
    [byte (240 + n / 262144); byte (128 + (n / 4096) mod 64);
     byte (128 + (n / 64) mod 64); byte (128 + n mod 64)].

Definition is_high (n : N) : bool := (55296 <=? n)%N && (n <=? 56319)%N.
Definition is_low (n : N) : bool := (56320 <=? n)%N && (n <=? 57343)%N.

Definition combine_surrogates (hi lo : N) : N :=
  (65536 + ((hi - 55296) * 1024 + (lo - 56320)))%N.

(** Where the scanner is.  String contents are accumulated reversed.
    [LUni acc hi ds]: inside a [\u] escape, [ds] the hex digits read so
    far (most recent first), [hi] a pending high surrogate.
    [LHigh acc hi]: a high surrogate was decoded and the next
    character decides whether a low one follows; [LHighEsc]: a
    backslash was read after it. *)
Inductive lex_mode : Type :=
| LTop
| LStr (acc : list ascii)
| LEsc (acc : list ascii)
| LUni (acc : list ascii) (hi : option N) (ds : list N)
| LHigh (acc : list ascii) (hi : N)
| LHighEsc (acc : list ascii) (hi : N)
| LNum (acc : list ascii)
| LWord (acc : list ascii).

Definition push (bs acc : list ascii) : list ascii := rev_append bs acc.

(** A character met between tokens. *)
Definition start (c : ascii) : option (lex_mode * list token) :=
  let n := code c in
  if is_json_ws c then Some (LTop, [])
  else if (n =? 123)%N then Some (LTop, [TLBrace])
  else if (n =? 125)%N then Some (LTop, [TRBrace])
  else if (n =? 91)%N then Some (LTop, [TLBrack])
  else if (n =? 93)%N then Some (LTop, [TRBrack])
  else if (n =? 58)%N then Some (LTop, [TColon])
  else if (n =? 44)%N then Some (LTop, [TComma])
  else if (n =? 34)%N then Some (LStr [], [])
  else if is_digit c || (n =? 45)%N then Some (LNum [c], [])
  else if is_letter c then Some (LWord [c], [])
  else None.

(** A character met inside a string literal: the closing quote ends it,
    a backslash opens an escape, a control character is refused. *)
Definition in_string (acc : list ascii) (c : ascii)
  : option (lex_mode * list token) :=
  let n := code c in
  if (n =? 34)%N then Some (LTop, [TStr (rev acc)])
  else if (n =? 92)%N then Some (LEsc acc, [])
  else if (n <? 32)%N then None
  else Some (LStr (c :: acc), []).

(** The character after a backslash. *)
Definition in_escape (acc : list ascii) (c : ascii)
  : option (lex_mode * list token) :=
  let n := code c in
  if (n =? 34)%N || (n =? 92)%N || (n =? 47)%N then Some (LStr (c :: acc), [])
  else if (n =? 98)%N then Some (LStr (byte 8 :: acc), [])
  else if (n =? 102)%N then Some (LStr (byte 12 :: acc), [])
  else if (n =? 110)%N then Some (LStr (byte 10 :: acc), [])
  else if (n =? 114)%N then Some (LStr (byte 13 :: acc), [])
  else if (n =? 116)%N then Some (LStr (byte 9 :: acc), [])
  else if (n =? 117)%N then Some (LUni acc None [], [])
  else None.

(** A [\u] escape is complete with value [u]. *)
Definition unicode_done (acc : list ascii) (hi : option N) (u : N) : lex_mode :=
  match hi with
  | Some h =>
      if is_low u then LStr (push (utf8 (combine_surrogates h u)) acc)
      else if is_high u then LHigh (push (utf8 h) acc) u
      else LStr (push (utf8 u) (push (utf8 h) acc))
  | None =>
      if is_high u then LHigh acc u else LStr (push (utf8 u) acc)
  end.

Definition in_unicode (acc : list ascii) (hi : option N) (ds : list N) (c : ascii)
  : option (lex_mode * list token) :=
  match hex_val c with
  | None => None
  | Some d =>
      match ds with
      | [d2; d1; d0] =>
          Some (unicode_done acc hi (((d0 * 16 + d1) * 16 + d2) * 16 + d)%N, [])
      | _ => Some (LUni acc hi (d :: ds), [])
      end
  end.

Fixpoint lex (m : lex_mode) (cs : list ascii) : option (list token) :=
  match cs with
  | [] =>
      match m with
      | LTop => Some []
      | LNum acc => Some [TNum (rev acc)]
      | LWord acc => Some [TWord (rev acc)]
      | _ => None
      end
  | c :: cs' =>
      let continue (r : option (lex_mode * list token)) (pre : list token) :=
        match r with
        | Some (m', ts) =>
            match lex m' cs' with
            | Some rest => Some (pre ++ ts ++ rest)%list
            | None => None
            end
        | None => None
        end in
      match m with
      | LTop => continue (start c) []
      | LStr acc => continue (in_string acc c) []
      | LEsc acc => continue (in_escape acc c) []
      | LUni acc hi ds => continue (in_unicode acc hi ds c) []
      | LHigh acc hi =>
          if (code c =? 92)%N then continue (Some (LHighEsc acc hi, [])) []
          else continue (in_string (push (utf8 hi) acc) c) []
      | LHighEsc acc hi =>
          if (code c =? 117)%N then continue (Some (LUni acc (Some hi) [], [])) []
          else continue (in_escape (push (utf8 hi) acc) c) []
      | LNum acc =>
          if is_num_char c then continue (Some (LNum (c :: acc), [])) []
          else if is_letter c && bool_decide (acc = [byte 45])
          then continue (Some (LWord (c :: acc), [])) []
          else continue (start c) [TNum (rev acc)]
      | LWord acc =>
          if is_letter c then continue (Some (LWord (c :: acc), [])) []
          else continue (start c) [TWord (rev acc)]
      end
  end.

(** *** Number literals

    An optional minus sign, then 0 or a digit sequence without leading
    zero, then an optional fraction (a dot and digits), then an optional
    exponent (e or E, an optional sign, digits).  Without fraction and
    exponent the value is an [int], otherwise a [float]. *)

Fixpoint digits (cs : list ascii) : list ascii * list ascii :=
  match cs with
  | c :: cs' =>
      if is_digit c then let '(ds, r) := digits cs' in (c :: ds, r)
      else ([], cs)
  | [] => ([], [])
  end.

Definition int_of_digits (ds : list ascii) : Z :=
  fold_left (fun a c => 10 * a + Z.of_N (code c - 48)) ds 0.

Definition exponent_ok (cs : list ascii) : bool :=
  match cs with
  | [] => true
  | e :: r =>
      if (code e =? 101)%N || (code e =? 69)%N then
        let r' := match r with
                  | s :: r'' =>
                      if (code s =? 43)%N || (code s =? 45)%N then r'' else r
                  | [] => r
                  end in
        match digits r' with
        | (_ :: _, []) => true
        | _ => false
        end
      else false
  end.

Definition fraction_ok (cs : list ascii) : bool :=
  match cs with
  | d :: r =>
      if (code d =? 46)%N then
        match digits r with
        | (_ :: _, r') => exponent_ok r'
        | _ => false
        end
      else exponent_ok cs
  | [] => true
  end.

Definition number (lit : list ascii) : option json :=
  let '(neg, body) :=
    match lit with
    | s :: r => if (code s =? 45)%N then (true, r) else (false, lit)
    | [] => (false, lit)
    end in
  match digits body with
  | ([], _) => None
  | (d :: ds, rest) =>
      if (code d =? 48)%N && negb (bool_decide (ds = [])) then None
      else
        match rest with
        | [] => Some (JInt (if neg then - int_of_digits (d :: ds)
                            else int_of_digits (d :: ds)))
        | _ => if fraction_ok rest
               then Some (JFloat (string_of_list_ascii lit))
               else None
        end
  end.

Definition word (w : list ascii) : option json :=
  let s := string_of_list_ascii w in
  if String.eqb s "null" then Some JNull
  else if String.eqb s "true" then Some (JBool true)
  else if String.eqb s "false" then Some (JBool false)
  else if String.eqb s "NaN" || String.eqb s "Infinity"
          || String.eqb s "-Infinity" then Some (JFloat s)
  else None.

(** *** Parsing the token list with an explicit stack *)

Inductive frame : Type :=
| FArr (acc : list json)                          (* elements, reversed *)
| FObj (d : list (string * json)) (k : string).   (* pairs so far, pending key *)

Inductive pmode : Type :=
| MValue (may_close : bool)        (* a value; or "]" right after "[" *)
| MKey (d : list (string * json)) (may_close : bool)
| MColon (d : list (string * json)) (k : string)
| MAfterArr (acc : list json)
| MAfterObj (d : list (string * json))
| MDone (v : json).

(** A complete value [v] goes to the innermost open container. *)
Definition reduce (v : json) (stk : list frame) : pmode * list frame :=
  match stk with
  | [] => (MDone v, [])
  | FArr acc :: stk' => (MAfterArr (v :: acc), stk')
  | FObj d k :: stk' => (MAfterObj (dict_set k v d), stk')
  end.

Fixpoint parse (m : pmode) (stk : list frame) (ts : list token) : option json :=
  match ts with
  | [] => match m, stk with MDone v, [] => Some v | _, _ => None end
  | t :: ts' =>
      let value (v : option json) :=
        match v with
        | Some v => let '(m', stk') := reduce v stk in parse m' stk' ts'
        | None => None
        end in
      match m, t with
      | MValue _, TStr s => value (Some (JString (string_of_list_ascii s)))
      | MValue _, TNum lit => value (number lit)
      | MValue _, TWord w => value (word w)
      | MValue _, TLBrack => parse (MValue true) (FArr [] :: stk) ts'
      | MValue _, TLBrace => parse (MKey [] true) stk ts'
      | MValue true, TRBrack =>
          match stk with
          | FArr [] :: stk' => let '(m', stk'') := reduce (JArray []) stk' in
                               parse m' stk'' ts'
          | _ => None
          end
      | MKey d _, TStr s => parse (MColon d (string_of_list_ascii s)) stk ts'
      | MKey d true, TRBrace => value (Some (JObject d))
      | MColon d k, TColon => parse (MValue false) (FObj d k :: stk) ts'
      | MAfterArr acc, TComma => parse (MValue false) (FArr acc :: stk) ts'
      | MAfterArr acc, TRBrack => value (Some (JArray (rev acc)))
      | MAfterObj d, TComma => parse (MKey d false) stk ts'
      | MAfterObj d, TRBrace => value (Some (JObject d))
      | _, _ => None
      end
  end.

(** [json.loads]: [None] stands for [JSONDecodeError]. *)
Definition loads (line : string) : option json :=
  match lex LTop (list_ascii_of_string line) with
  | Some ts => parse (MValue false) [] ts
  | None => None
  end.

End Json.
Export Json.

(** Test inputs are written with an apostrophe where the JSON text has a
    double quote; [q] puts the double quotes in. *)
Definition q (s : string) : string :=
  string_of_list_ascii
    (map (fun c => if (code c =? 39)%N then byte 34 else c) (list_ascii_of_string s)).

(** ** Python values and exceptions *)

(** The exceptions [persist_lines] can end with.  The first five are the
    ones the function raises or re-raises itself; the others come from
    the operations it performs without a guard. *)
Inductive exn : Type :=
| JSONDecodeError (line : string)
| MissingRequiredKey (k : string) (line : string)
    (* Exception: Line is missing required key k *)
| RecordBeforeSchema (stream : json)
    (* Exception: A record for stream ... was encountered before a
       corresponding schema *)
| KeyPropertiesRequired
    (* Exception: key_properties field is required *)
| UnknownMessageType (t : json) (o : json)
| KeyError (k : json)
| TypeError (what : string)
| UnboundLocalError (name : string)
| ValidatorError (name : string)       (* raised inside jsonschema *)
| TransportError (name : string).      (* raised inside http.client *)

Inductive result (A : Type) : Type :=
| Ok (a : A)
| Raise (e : exn).
Arguments Ok {A} a.
Arguments Raise {A} e.

(** Substring test on the characters of two strings. *)
Fixpoint is_prefix (p s : list ascii) : bool :=
  match p, s with
  | [], _ => true
  | a :: p', b :: s' => if Ascii.eqb a b then is_prefix p' s' else false
  | _ :: _, [] => false
  end.

Fixpoint is_substring (p s : list ascii) : bool :=
  is_prefix p s || match s with [] => false | _ :: s' => is_substring p s' end.

(** [v == k] for a string [k]. *)
Definition is_str (k : string) (v : json) : bool :=
  match v with JString s => String.eqb s k | _ => false end.

(** [k in o] for a string [k]: key membership on a dict, element
    membership on a list, substring test on a str, [TypeError] on the
    values that are not containers. *)
Definition py_in (k : string) (o : json) : result bool :=
  match o with
  | JObject d => Ok (dict_in k d)
  | JArray l => Ok (existsb (is_str k) l)
  | JString s => Ok (is_substring (list_ascii_of_string k) (list_ascii_of_string s))
  | _ => Raise (TypeError "argument is not iterable")
  end.

(** [o[k]] for a string [k]. *)
Definition py_getitem (o : json) (k : string) : result json :=
  match o with
  | JObject d =>
      match dict_get k d with
      | Some v => Ok v
      | None => Raise (KeyError (JString k))
      end
  | JArray _ | JString _ => Raise (TypeError "indices must be integers")
  | _ => Raise (TypeError "object is not subscriptable")
  end.

(** *** The value of a float literal

    [json.loads] turns a float literal into [float(literal)]: the IEEE
    754 double nearest to the decimal number, ties going to the even
    mantissa, a number beyond the largest double becoming an infinity
    and one below half the smallest becoming zero.  The literal is
    [n] times ten to the [e10], [n] being its digits read without the
    dot. *)

Definition literal_parts (lit : list ascii) : bool * Z * Z :=
  let '(neg, body) :=
    match lit with
    | s :: r => if (code s =? 45)%N then (true, r) else (false, lit)
    | [] => (false, lit)
    end in
  let '(ip, rest) := digits body in
  let '(fp, rest') :=
    match rest with
    | d :: r => if (code d =? 46)%N then digits r else ([], rest)
    | [] => ([], [])
    end in
  let ex :=
    match rest' with
    | _ :: s :: r =>
        if (code s =? 45)%N then - int_of_digits (fst (digits r))
        else if (code s =? 43)%N then int_of_digits (fst (digits r))
        else int_of_digits (fst (digits (s :: r)))
    | _ => 0
    end in
  (neg, int_of_digits (ip ++ fp), ex - Z.of_nat (length fp)).

(** [a / b] rounded to the nearest integer, a tie to the even one. *)
Definition round_half_even (a b : Z) : Z :=
  let q := a / b in
  match 2 * (a mod b) ?= b with
  | Lt => q
  | Gt => q + 1
  | Eq => if Z.even q then q else q + 1
  end.

(** Whether [num / den] is at least two to the [k]. *)
Definition ge_pow2 (num den k : Z) : bool :=
  if (0 <=? k)%Z then (den * 2 ^ k <=? num)%Z else (den <=? num * 2 ^ (- k))%Z.

Inductive magnitude : Type :=
| MZero
| MInf
| MFin (m p : Z).

(** The double nearest to [n] times ten to the [e10], for [n >= 0]: its
    magnitude is [m] times two to the [p].  [k] is the binary exponent
    of the number; a normal double has 53 mantissa bits, a subnormal
    one the fixed exponent -1074. *)
Definition nearest_double (n e10 : Z) : magnitude :=
  if (n =? 0)%Z then MZero
  else
    let '(num, den) :=
      if (0 <=? e10)%Z then (n * 10 ^ e10, 1) else (n, 10 ^ (- e10)) in
    let k0 := Z.log2 num - Z.log2 den in
    let k := if ge_pow2 num den k0 then k0 else k0 - 1 in
    if (1024 <=? k)%Z then MInf
    else
      let p := Z.max (k - 52) (-1074) in
      let m := if (0 <=? p)%Z then round_half_even num (den * 2 ^ p)
               else round_half_even (num * 2 ^ (- p)) den in
      if (m =? 0)%Z then MZero
      else if (0 <=? p)%Z && (2 ^ 1024 <=? m * 2 ^ p)%Z then MInf
      else MFin m p.

Fixpoint lowest_terms (fuel : nat) (m p : Z) : Z * Z :=
  match fuel with
  | O => (m, p)
  | S fuel' =>
      if (p <? 0)%Z && Z.even m then lowest_terms fuel' (m / 2) (p + 1)
      else (m, p)
  end.

(** Keys of the registries.  A stream name is whatever [o['stream']]
    holds.  A dict finds a key that is equal to the one asked for, and
    numbers are equal by value whatever their type: [true] and [false]
    are the integers 1 and 0, and a float with an integral value is
    that integer (1.0, 1e0 and 1 are one key, and so are 0.0, -0.0 and
    0).  Any other finite float is [KFloat m e], the value [m] times
    two to the [e] with [m] odd and [e] negative.  The decoder returns
    one and the same object for every [NaN], which a dict finds by
    identity, so that [NaN] is one key as well.  A string is equal to
    no number; a list or an object cannot be hashed. *)
Inductive pykey : Type :=
| KNone
| KInt (n : Z)
| KFloat (m e : Z)
| KInf (neg : bool)
| KNaN
| KStr (s : string).

#[global] Instance pykey_eq_dec : EqDecision pykey.
Proof. solve_decision. Defined.

#[global] Instance pykey_countable : Countable pykey.
Proof.
  refine (inj_countable'
    (fun k => match k with
              | KNone => inl ()
              | KInt n => inr (inl n)
              | KFloat m e => inr (inr (inl (inl (m, e))))
              | KInf neg => inr (inr (inl (inr (Some neg))))
              | KNaN => inr (inr (inl (inr None)))
              | KStr s => inr (inr (inr s))
              end)
    (fun x => match x with
              | inl _ => KNone
              | inr (inl n) => KInt n
              | inr (inr (inl (inl (m, e)))) => KFloat m e
              | inr (inr (inl (inr (Some neg)))) => KInf neg
              | inr (inr (inl (inr None))) => KNaN
              | inr (inr (inr s)) => KStr s
              end) _).
  by intros [].
Defined.

(** The key of the float decoded from the literal [lit]. *)
Definition float_key (lit : string) : pykey :=
  if String.eqb lit "NaN" then KNaN
  else if String.eqb lit "Infinity" then KInf false
  else if String.eqb lit "-Infinity" then KInf true
  else
    let '(neg, n, e10) := literal_parts (list_ascii_of_string lit) in
    let sign := fun v : Z => if neg then - v else v in
    match nearest_double n e10 with
    | MZero => KInt 0
    | MInf => KInf neg
    | MFin m p =>
        let '(m', p') := lowest_terms (Z.to_nat (- p)) m p in
        if (0 <=? p')%Z then KInt (sign (m' * 2 ^ p')) else KFloat (sign m') p'
    end.

Definition py_hash (v : json) : result pykey :=
  match v with
  | JNull => Ok KNone
  | JBool b => Ok (KInt (if b then 1 else 0))
  | JInt n => Ok (KInt n)
  | JFloat l => Ok (float_key l)
  | JString s => Ok (KStr s)
  | JArray _ | JObject _ => Raise (TypeError "unhashable type")
  end.

(** ** What the function is given: configuration, libraries, outside world *)

(** The configuration dict, read with [config.get(key, default)]: [None]
    is an absent key.  Values have their documented types. *)
Record Config : Type := {
  cfg_batch_size : option Z;
  cfg_table_name : option string;
  cfg_region_url : option string;
  cfg_batch_api_path : option string;
  cfg_token : option string
}.

Definition config_get {A} (field : option A) (default : A) : A :=
  match field with Some v => v | None => default end.

(** One element of [messages]:
    [{'action': 'upsert', 'data': ..., 'sequence': ...}]. *)
Record Operation : Type := {
  action : string;
  data : json;
  sequence : Z
}.

(** The dict handed to [post_data]. *)
Record Payload : Type := {
  payload_schema : json;
  payload_table_name : string;
  payload_messages : list Operation
}.

(** The POST request [post_data] sends. *)
Record Request : Type := {
  req_host : string;
  req_path : string;
  req_authorization : string;
  req_body : Payload
}.

(** [jsonschema]: building a validator from a schema document, and
    validating an instance with it.  Either may raise. *)
Class Jsonschema : Type := {
  validator : Type;
  Draft4Validator : json -> result validator;
  validate : validator -> json -> result unit
}.

(** The outside world: the [n]-th reading of [int(time.time())], and the
    answer to the [n]-th request ([Raise] for a failed connection,
    otherwise the body of the response). *)
Class World : Type := {
  time_time : nat -> Z;
  getresponse : nat -> Request -> result string
}.

(** Lines written to standard output. *)
Inductive Output : Type :=
| SendingBatch (n : Z)            (* print("SENDING BATCH: " + str(n)) *)
| ResponseBody (body : string)    (* print(response.read().decode()) *)
| StateLine (v : json).           (* json.dumps(state) and a newline *)

(** ** The program *)

Section Program.

Context `{JS : Jsonschema} `{W : World}.

(** The local variables of [persist_lines] and the effects performed so
    far.  [schema] is assigned by the first record only: until then the
    name is unbound ([None]).  [data] is only ever written and then
    passed to [post_data]; it is not kept here. *)
Record Locals : Type := {
  state : json;
  schemas : gmap pykey json;
  key_properties : gmap pykey json;
  validators : gmap pykey validator;
  batch_size : Z;
  number_of_the_current_batch : Z;
  messages : list Operation;
  timestamp : Z;
  schema : option json;
  clock_reads : nat;               (* calls of time.time() so far *)
  requests : list Request;         (* requests sent so far, oldest first *)
  stdout : list Output             (* lines printed so far, oldest first *)
}.

(** State and exceptions: a computation returns the state it stopped in,
    also when it raises. *)
Definition M (A : Type) : Type := Locals -> Locals * result A.

Definition ret {A} (a : A) : M A := fun s => (s, Ok a).
Definition raise {A} (e : exn) : M A := fun s => (s, Raise e).
Definition bind {A B} (m : M A) (k : A -> M B) : M B :=
  fun s => match m s with
           | (s', Ok a) => k a s'
           | (s', Raise e) => (s', Raise e)
           end.
Definition lift {A} (r : result A) : M A := fun s => (s, r).
Definition get : M Locals := fun s => (s, Ok s).
Definition modify (f : Locals -> Locals) : M unit := fun s => (f s, Ok tt).

Notation "x <- m ;; k" := (bind m (fun x => k))
  (at level 100, m at next level, right associativity).
Notation "m ;;; k" := (bind m (fun _ => k))
  (at level 100, right associativity).

Definition set_state v (s : Locals) : Locals :=
  {| state := v; schemas := schemas s; key_properties := key_properties s;
     validators := validators s; batch_size := batch_size s;
     number_of_the_current_batch := number_of_the_current_batch s;
     messages := messages s; timestamp := timestamp s; schema := schema s;
     clock_reads := clock_reads s; requests := requests s; stdout := stdout s |}.
Definition set_schemas v (s : Locals) : Locals :=
  {| state := state s; schemas := v; key_properties := key_properties s;
     validators := validators s; batch_size := batch_size s;
     number_of_the_current_batch := number_of_the_current_batch s;
     messages := messages s; timestamp := timestamp s; schema := schema s;
     clock_reads := clock_reads s; requests := requests s; stdout := stdout s |}.
Definition set_key_properties v (s : Locals) : Locals :=
  {| state := state s; schemas := schemas s; key_properties := v;
     validators := validators s; batch_size := batch_size s;
     number_of_the_current_batch := number_of_the_current_batch s;
     messages := messages s; timestamp := timestamp s; schema := schema s;
     clock_reads := clock_reads s; requests := requests s; stdout := stdout s |}.
Definition set_validators v (s : Locals) : Locals :=
  {| state := state s; schemas := schemas s; key_properties := key_properties s;
     validators := v; batch_size := batch_size s;
     number_of_the_current_batch := number_of_the_current_batch s;
     messages := messages s; timestamp := timestamp s; schema := schema s;
     clock_reads := clock_reads s; requests := requests s; stdout := stdout s |}.
Definition set_batch_size v (s : Locals) : Locals :=
  {| state := state s; schemas := schemas s; key_properties := key_properties s;
     validators := validators s; batch_size := v;
     number_of_the_current_batch := number_of_the_current_batch s;
     messages := messages s; timestamp := timestamp s; schema := schema s;
     clock_reads := clock_reads s; requests := requests s; stdout := stdout s |}.
Definition set_number_of_the_current_batch v (s : Locals) : Locals :=
  {| state := state s; schemas := schemas s; key_properties := key_properties s;
     validators := validators s; batch_size := batch_size s;
     number_of_the_current_batch := v;
     messages := messages s; timestamp := timestamp s; schema := schema s;
     clock_reads := clock_reads s; requests := requests s; stdout := stdout s |}.
Definition set_messages v (s : Locals) : Locals :=
  {| state := state s; schemas := schemas s; key_properties := key_properties s;
     validators := validators s; batch_size := batch_size s;
     number_of_the_current_batch := number_of_the_current_batch s;
     messages := v; timestamp := timestamp s; schema := schema s;
     clock_reads := clock_reads s; requests := requests s; stdout := stdout s |}.
Definition set_timestamp v (s : Locals) : Locals :=
  {| state := state s; schemas := schemas s; key_properties := key_properties s;
     validators := validators s; batch_size := batch_size s;
     number_of_the_current_batch := number_of_the_current_batch s;
     messages := messages s; timestamp := v; schema := schema s;
     clock_reads := clock_reads s; requests := requests s; stdout := stdout s |}.
Definition set_schema v (s : Locals) : Locals :=
  {| state := state s; schemas := schemas s; key_properties := key_properties s;
     validators := validators s; batch_size := batch_size s;
     number_of_the_current_batch := number_of_the_current_batch s;
     messages := messages s; timestamp := timestamp s; schema := v;
     clock_reads := clock_reads s; requests := requests s; stdout := stdout s |}.
Definition set_clock_reads v (s : Locals) : Locals :=
  {| state := state s; schemas := schemas s; key_properties := key_properties s;
     validators := validators s; batch_size := batch_size s;
     number_of_the_current_batch := number_of_the_current_batch s;
     messages := messages s; timestamp := timestamp s; schema := schema s;
     clock_reads := v; requests := requests s; stdout := stdout s |}.
Definition set_requests v (s : Locals) : Locals :=
  {| state := state s; schemas := schemas s; key_properties := key_properties s;
     validators := validators s; batch_size := batch_size s;
     number_of_the_current_batch := number_of_the_current_batch s;
     messages := messages s; timestamp := timestamp s; schema := schema s;
     clock_reads := clock_reads s; requests := v; stdout := stdout s |}.
Definition set_stdout v (s : Locals) : Locals :=
  {| state := state s; schemas := schemas s; key_properties := key_properties s;
     validators := validators s; batch_size := batch_size s;
     number_of_the_current_batch := number_of_the_current_batch s;
     messages := messages s; timestamp := timestamp s; schema := schema s;
     clock_reads := clock_reads s; requests := requests s; stdout := v |}.

(** [print(...)] and [sys.stdout.write(...)]. *)
Definition print (o : Output) : M unit :=
  modify (fun s => set_stdout (stdout s ++ [o]) s).

(** [int(time.time())]. *)
Definition now : M Z :=
  s <- get ;;
  modify (set_clock_reads (S (clock_reads s))) ;;;
  ret (time_time (clock_reads s)).

(** [post_data(config, data)]: one blocking POST; the body of the
    response is printed. *)
Definition post_data (config : Config) (d : Payload) : M unit :=
  let request :=
    {| req_host := config_get (cfg_region_url config) "";
       req_path := config_get (cfg_batch_api_path config) "";
       req_authorization := "Bearer " +:+ config_get (cfg_token config) "";
       req_body := d |} in
  s <- get ;;
  modify (set_requests (requests s ++ [request])) ;;;
  body <- lift (getresponse (length (requests s)) request) ;;
  print (ResponseBody body).

(** [emit_state(state)]. *)
Definition emit_state (st : json) : M unit :=
  match st with
  | JNull => ret tt
  | _ => print (StateLine st)
  end.

(** Reading the local [schema], unbound until a record was seen. *)
Definition read_schema : M json :=
  s <- get ;;
  match schema s with
  | Some sch => ret sch
  | None => raise (UnboundLocalError "schema")
  end.

(** [data = {...}; post_data(config, data)], lines 100-101 and 108-109. *)
Definition submit (config : Config) : M unit :=
  sch <- read_schema ;;
  s <- get ;;
  post_data config {| payload_schema := sch;
                      payload_table_name := config_get (cfg_table_name config) "";
                      payload_messages := messages s |}.

(** The [RECORD] branch, lines 60-81. *)
Definition on_record (o : json) (line : string) : M unit :=
  has_stream <- lift (py_in "stream" o) ;;
  if negb has_stream then raise (MissingRequiredKey "stream" line) else
  stream <- lift (py_getitem o "stream") ;;
  k <- lift (py_hash stream) ;;
  s <- get ;;
  match schemas s !! k with
  | None => raise (RecordBeforeSchema stream)
  | Some sch =>
      modify (set_schema (Some sch)) ;;;
      match validators s !! k with
      | None => raise (KeyError stream)
      | Some v =>
          record <- lift (py_getitem o "record") ;;
          lift (validate v record) ;;;
          modify (fun s => set_batch_size (batch_size s + 1) s) ;;;
          modify (fun s =>
            set_messages
              (messages s ++ [{| action := "upsert"; data := record;
                                 sequence := timestamp s + batch_size s |}]) s) ;;;
          modify (set_state JNull)
      end
  end.

(** The [STATE] branch, lines 83-84. *)
Definition on_state (o : json) : M unit :=
  value <- lift (py_getitem o "value") ;;
  modify (set_state value).

(** The [SCHEMA] branch, lines 86-93. *)
Definition on_schema (o : json) (line : string) : M unit :=
  has_stream <- lift (py_in "stream" o) ;;
  if negb has_stream then raise (MissingRequiredKey "stream" line) else
  stream <- lift (py_getitem o "stream") ;;
  sch <- lift (py_getitem o "schema") ;;
  k <- lift (py_hash stream) ;;
  modify (fun s => set_schemas (<[k := sch]> (schemas s)) s) ;;;
  v <- lift (Draft4Validator sch) ;;
  modify (fun s => set_validators (<[k := v]> (validators s)) s) ;;;
  has_kp <- lift (py_in "key_properties" o) ;;
  if negb has_kp then raise KeyPropertiesRequired else
  kp <- lift (py_getitem o "key_properties") ;;
  modify (fun s => set_key_properties (<[k := kp]> (key_properties s)) s).

(** [max_batch_size = config.get('batch_size', 1000)], line 42. *)
Definition max_batch_size (config : Config) : Z :=
  config_get (cfg_batch_size config) 1000.

(** The threshold check that ends every iteration, lines 98-105. *)
Definition check_threshold (config : Config) : M unit :=
  s <- get ;;
  if batch_size s >? max_batch_size config then
    print (SendingBatch (number_of_the_current_batch s)) ;;;
    submit config ;;;
    modify (set_messages []) ;;;
    t <- now ;;
    modify (set_timestamp t) ;;;
    modify (fun s => set_number_of_the_current_batch
                       (number_of_the_current_batch s + 1) s) ;;;
    modify (set_batch_size 0)
  else ret tt.

(** The message handling of one iteration, lines 49-96. *)
Definition dispatch (line : string) : M unit :=
  match loads line with
  | None => raise (JSONDecodeError line)
  | Some o =>
      has_type <- lift (py_in "type" o) ;;
      if negb has_type then raise (MissingRequiredKey "type" line) else
      t <- lift (py_getitem o "type") ;;
      if is_str "RECORD" t then on_record o line
      else if is_str "STATE" t then on_state o
      else if is_str "SCHEMA" t then on_schema o line
      else raise (UnknownMessageType t o)
  end.

(** One iteration of the loop over the lines. *)
Definition persist_line (config : Config) (line : string) : M unit :=
  dispatch line ;;; check_threshold config.

Fixpoint loop (config : Config) (lines : list string) : M unit :=
  match lines with
  | [] => ret tt
  | line :: rest => persist_line config line ;;; loop config rest
  end.

(** The assignments before the loop, lines 37-46.  The function starts
    with a fresh frame: [schema] is not bound. *)
Definition prologue : M unit :=
  modify (set_schema None) ;;;
  modify (set_state JNull) ;;;
  modify (set_schemas ∅) ;;;
  modify (set_key_properties ∅) ;;;
  modify (set_validators ∅) ;;;
  modify (set_batch_size 0) ;;;
  modify (set_number_of_the_current_batch 1) ;;;
  modify (set_messages []) ;;;
  t <- now ;;
  modify (set_timestamp t).

(** After the loop, lines 107-111. *)
Definition epilogue (config : Config) : M json :=
  s <- get ;;
  (if (0 <? length (messages s))%nat then submit config else ret tt) ;;;
  s <- get ;;
  ret (state s).

Definition persist_lines (config : Config) (lines : list string) : M json :=
  prologue ;;; loop config lines ;;; epilogue config.

(** The end of [main]: run over the input, then emit the checkpoint. *)
Definition main (config : Config) (lines : list string) : M unit :=
  st <- persist_lines config lines ;;
  emit_state st.

(** Nothing has happened yet when the process starts. *)
Definition boot : Locals :=
  {| state := JNull; schemas := ∅; key_properties := ∅; validators := ∅;
     batch_size := 0; number_of_the_current_batch := 0; messages := [];
     timestamp := 0; schema := None;
     clock_reads := 0; requests := []; stdout := [] |}.

End Program.

Arguments Locals {JS}.
Arguments M {JS} A.

(** ** [flatten] *)

(** [flatten(d, parent_key, sep)], lines 26-34, for a dict [d] decoded
    from JSON and for the Python versions that have
    [collections.MutableMapping].  A value of the result is a value of
    the input, or [str(v)] of a list [v]; the text of that string is not
    computed here, the list is kept instead. *)
Inductive flat : Type :=
| Kept (v : json)
| StrOf (l : list json).

(** [dict(items)]: a later item replaces the value of an equal key and
    keeps its place. *)
Fixpoint set_item {A} (k : string) (v : A) (d : list (string * A))
  : list (string * A) :=
  match d with
  | [] => [(k, v)]
  | (k', v') :: d' =>
      if String.eqb k k' then (k, v) :: d' else (k', v') :: set_item k v d'
  end.

Definition dict_of_items {A} (items : list (string * A)) : list (string * A) :=
  fold_left (fun d kv => set_item (fst kv) (snd kv) d) items [].

(** [parent_key + sep + k if parent_key else k]. *)
Definition new_key (sep parent k : string) : string :=
  match parent with
  | EmptyString => k
  | _ => (parent +:+ sep) +:+ k
  end.

(** What one turn of the loop adds to [items] for the key [key] (already
    prefixed) and the value [v]; for a dict, the items of the recursive
    call. *)
Fixpoint flatten_entry (sep key : string) (v : json) {struct v}
  : list (string * flat) :=
  match v with
  | JObject d =>
      dict_of_items
        ((fix loop (d : list (string * json)) : list (string * flat) :=
            match d with
            | [] => []
            | (k, x) :: rest =>
                flatten_entry sep (new_key sep key k) x ++ loop rest
            end) d)
  | JArray l => [(key, StrOf l)]
  | _ => [(key, Kept v)]
  end.

(** The list [items] when the loop over [d.items()] is over. *)
Fixpoint flatten_items (sep parent : string) (d : list (string * json))
  : list (string * flat) :=
  match d with
  | [] => []
  | (k, x) :: rest =>
      flatten_entry sep (new_key sep parent k) x ++ flatten_items sep parent rest
  end.

(** [return dict(items)]. *)
Definition flatten (d : list (string * json)) (parent_key sep : string)
  : list (string * flat) :=
  dict_of_items (flatten_items sep parent_key d).

(** A value that [flatten] leaves as it is. *)
Definition is_scalar (v : json) : bool :=
  match v with
  | JObject _ | JArray _ => false
  | _ => true
  end.

(** A value of a flattened dict that is neither a dict nor a list. *)
Definition is_flat (v : flat) : bool :=
  match v with
  | Kept v => is_scalar v
  | StrOf _ => true
  end.

(** The keys of a dict, in its order. *)
Definition keys {A} (d : list (string * A)) : list string := map fst d.

(** ** A validator and a world to run the program with *)

(** The keywords [type] and [required] of JSON Schema Draft 4, checked
    the way [jsonschema] does it: the constructor keeps the schema
    document and looks at nothing but its being a dict (it reads
    [schema.get('id')] for the reference resolver); the document itself
    is only read when an instance is validated.  Keywords other than
    these two are not looked at by this instance. *)
Module Draft4.

Definition simple_types : list string :=
  ["array"; "boolean"; "integer"; "null"; "number"; "object"; "string"].

Definition is_type (instance : json) (t : string) : bool :=
  match instance with
  | JArray _ => String.eqb t "array"
  | JBool _ => String.eqb t "boolean"
  | JInt _ => String.eqb t "integer" || String.eqb t "number"
  | JFloat _ => String.eqb t "number"
  | JNull => String.eqb t "null"
  | JObject _ => String.eqb t "object"
  | JString _ => String.eqb t "string"
  end.

(** [any(is_type(instance, t) for t in types)]: a name that is not a
    type raises when it is reached. *)
Fixpoint any_type (instance : json) (types : list json) : result bool :=
  match types with
  | [] => Ok false
  | JString t :: rest =>
      if existsb (String.eqb t) simple_types then
        if is_type instance t then Ok true else any_type instance rest
      else Raise (ValidatorError "UnknownType")
  | _ :: _ => Raise (ValidatorError "UnknownType")
  end.

Definition check_type (types instance : json) : result unit :=
  match match types with
        | JString t => any_type instance [types]
        | JArray l => any_type instance l
        | _ => Raise (ValidatorError "TypeError")
        end with
  | Ok true => Ok tt
  | Ok false => Raise (ValidatorError "ValidationError")
  | Raise e => Raise e
  end.

Fixpoint check_required (names : list json) (d : list (string * json))
  : result unit :=
  match names with
  | [] => Ok tt
  | JString n :: rest =>
      if dict_in n d then check_required rest d
      else Raise (ValidatorError "ValidationError")
  | _ :: _ => Raise (ValidatorError "TypeError")
  end.

Definition check_keyword (instance : json) (kw : string * json) : result unit :=
  let '(k, v) := kw in
  if String.eqb k "type" then check_type v instance
  else if String.eqb k "required" then
    match instance, v with
    | JObject d, JArray names => check_required names d
    | JObject _, _ => Raise (ValidatorError "TypeError")
    | _, _ => Ok tt
    end
  else Ok tt.

Fixpoint check_keywords (instance : json) (kws : list (string * json))
  : result unit :=
  match kws with
  | [] => Ok tt
  | kw :: rest =>
      match check_keyword instance kw with
      | Ok _ => check_keywords instance rest
      | Raise e => Raise e
      end
  end.

(** What the Draft 4 meta-schema asks of [type]: the name of a simple
    type, or a list of such names that is not empty and repeats none. *)
Fixpoint unique_names (l : list json) : bool :=
  match l with
  | [] => true
  | JString t :: rest => negb (existsb (is_str t) rest) && unique_names rest
  | _ :: _ => false
  end.

Definition type_keyword_ok (v : json) : bool :=
  match v with
  | JString t => existsb (String.eqb t) simple_types
  | JArray [] => false
  | JArray l =>
      forallb (fun t => existsb (fun n => is_str n t) simple_types) l
      && unique_names l
  | _ => false
  end.

(** A schema document whose [type] keyword the meta-schema refuses. *)
Definition structurally_invalid (sch : json) : bool :=
  match sch with
  | JObject d =>
      match dict_get "type" d with
      | Some v => negb (type_keyword_ok v)
      | None => false
      end
  | _ => true
  end.

#[global] Instance jsonschema : Jsonschema := {|
  validator := list (string * json);
  Draft4Validator sch :=
    match sch with
    | JObject d => Ok d
    | _ => Raise (ValidatorError "AttributeError")
    end;
  validate d instance := check_keywords instance d
|}.

End Draft4.

(** A world where the clock stands still at [t] and every request is
    answered with the same body. *)
Definition frozen_world (t : Z) : World := {|
  time_time _ := t;
  getresponse _ _ := Ok "OK"
|}.

(** A world whose clock advances by [d] seconds between two readings. *)
Definition ticking_world (t d : Z) : World := {|
  time_time n := t + d * Z.of_nat n;
  getresponse _ _ := Ok "OK"
|}.

(** A configuration with the threshold [n]. *)
Definition config_of (n : Z) : Config := {|
  cfg_batch_size := Some n;
  cfg_table_name := Some "users";
  cfg_region_url := Some "api.stitchdata.com";
  cfg_batch_api_path := Some "/v2/import/batch";
  cfg_token := Some "secret"
|}.

(** The declaration of the stream [users]. *)
Definition users_schema : string :=
  q "{'type': 'SCHEMA', 'stream': 'users', 'schema': {'type': 'object', 'required': ['id']}, 'key_properties': ['id']}".

(** A valid record of the stream [users], and a STATE message. *)
Definition user (n : string) : string :=
  q "{'type': 'RECORD', 'stream': 'users', 'record': {'id': " +:+ n +:+ "}}".

Definition bookmark (n : string) : string :=
  q "{'type': 'STATE', 'value': {'bookmark': " +:+ n +:+ "}}".

(** What an execution sent, in order: the sequence numbers of each
    request. *)
Definition sent `{Jsonschema} (s : Locals) : list (list Z) :=
  map (fun r => map sequence (payload_messages (req_body r))) (requests s).

(** A SCHEMA message whose schema document is not valid Draft 4. *)
Definition bad_schema : string :=
  q "{'type': 'SCHEMA', 'stream': 'users', 'schema': {'type': 5}, 'key_properties': ['id']}".

(** A SCHEMA message whose schema is not even a dict. *)
Definition string_schema : string :=
  q "{'type': 'SCHEMA', 'stream': 'users', 'schema': 'nonsense', 'key_properties': ['id']}".

(** A SCHEMA message without key_properties. *)
Definition keyless_schema : string :=
  q "{'type': 'SCHEMA', 'stream': 'users', 'schema': {'type': 'object'}}".

(** A RECORD message of another stream, and one without its record. *)
Definition order : string :=
  q "{'type': 'RECORD', 'stream': 'orders', 'record': {'id': 1}}".

Definition empty_record : string :=
  q "{'type': 'RECORD', 'stream': 'users'}".

(** The declaration of a second stream. *)
Definition orders_schema : string :=
  q "{'type': 'SCHEMA', 'stream': 'orders', 'schema': {'type': 'object'}, 'key_properties': []}".

(** A record of [users] without the required [id]. *)
Definition nameless_user : string :=
  q "{'type': 'RECORD', 'stream': 'users', 'record': {'name': 'rex'}}".

(** Messages of the wrong shape. *)
Definition typeless : string := q "{'stream': 'users'}".

Definition activate_version : string :=
  q "{'type': 'ACTIVATE_VERSION', 'stream': 'users', 'version': 1}".

Definition streamless : string := q "{'type': 'RECORD', 'record': {'id': 1}}".

Definition valueless : string := q "{'type': 'STATE'}".

(** Streams named by numbers: a declaration under 1, another under 1.0,
    and records that name the stream 1e0 and [true]. *)
Definition schema_one : string :=
  q "{'type': 'SCHEMA', 'stream': 1, 'schema': {'type': 'object'}, 'key_properties': ['id']}".

Definition schema_one_float : string :=
  q "{'type': 'SCHEMA', 'stream': 1.0, 'schema': {'type': 'object', 'required': ['id']}, 'key_properties': []}".

Definition record_one_float : string :=
  q "{'type': 'RECORD', 'stream': 1e0, 'record': {'id': 7}}".

Definition record_true : string :=
  q "{'type': 'RECORD', 'stream': true, 'record': {'id': 7}}".

(** ** Notions the properties are stated with *)

Section Theory.
Context `{JS : Jsonschema} `{W : World}.

Notation "x <- m ;; k" := (bind m (fun x => k))
  (at level 100, m at next level, right associativity).
Notation "m ;;; k" := (bind m (fun _ => k))
  (at level 100, right associativity).

(** The state a record that passed validation leaves (lines 66-81). *)
Definition accept (sch rec : json) (s : Locals) : Locals :=
  set_state JNull
    (set_messages
       (messages s ++ [{| action := "upsert"; data := rec;
                          sequence := timestamp s + (batch_size s + 1) |}])
       (set_batch_size (batch_size s + 1) (set_schema (Some sch) s))).

(** The state a complete SCHEMA message leaves (lines 88-93). *)
Definition register (k : pykey) (sch : json) (v : validator) (kp : json)
    (s : Locals) : Locals :=
  set_key_properties (<[k := kp]> (key_properties s))
    (set_validators (<[k := v]> (validators s))
       (set_schemas (<[k := sch]> (schemas s)) s)).

(** The three ways a line is handled without an exception. *)
Inductive handled (line : string) (s : Locals) : Locals -> Prop :=
| handled_record o stream k sch v rec :
    loads line = Some o ->
    py_getitem o "type" = Ok (JString "RECORD") ->
    py_getitem o "stream" = Ok stream ->
    py_hash stream = Ok k ->
    schemas s !! k = Some sch ->
    validators s !! k = Some v ->
    py_getitem o "record" = Ok rec ->
    validate v rec = Ok tt ->
    handled line s (accept sch rec s)
| handled_state o v :
    loads line = Some o ->
    py_getitem o "type" = Ok (JString "STATE") ->
    py_getitem o "value" = Ok v ->
    handled line s (set_state v s)
| handled_schema o stream k sch v kp :
    loads line = Some o ->
    py_getitem o "type" = Ok (JString "SCHEMA") ->
    py_getitem o "stream" = Ok stream ->
    py_getitem o "schema" = Ok sch ->
    py_hash stream = Ok k ->
    Draft4Validator sch = Ok v ->
    py_getitem o "key_properties" = Ok kp ->
    handled line s (register k sch v kp s).

(** Fields a failed message handling leaves as they were. *)
Definition same_batch (s s' : Locals) : Prop :=
  messages s' = messages s /\ batch_size s' = batch_size s /\
  timestamp s' = timestamp s /\ clock_reads s' = clock_reads s /\
  requests s' = requests s /\ stdout s' = stdout s /\ state s' = state s.

(** The request [post_data] builds for a batch. *)
Definition request_of (config : Config) (sch : json) (ops : list Operation)
  : Request :=
  {| req_host := config_get (cfg_region_url config) "";
     req_path := config_get (cfg_batch_api_path config) "";
     req_authorization := "Bearer " +:+ config_get (cfg_token config) "";
     req_body := {| payload_schema := sch;
                    payload_table_name := config_get (cfg_table_name config) "";
                    payload_messages := ops |} |}.

(** The request is on its way. *)
Definition posting (config : Config) (sch : json) (s : Locals) : Locals :=
  set_requests (requests s ++ [request_of config sch (messages s)]) s.

(** [SENDING BATCH] was printed. *)
Definition announced (s : Locals) : Locals :=
  set_stdout (stdout s ++ [SendingBatch (number_of_the_current_batch s)]) s.

(** The state a successful threshold flush leaves. *)
Definition flushed (config : Config) (sch : json) (body : string) (s : Locals)
  : Locals :=
  let s1 := posting config sch (announced s) in
  let s2 := set_stdout (stdout s1 ++ [ResponseBody body]) s1 in
  set_batch_size 0
    (set_number_of_the_current_batch (number_of_the_current_batch s + 1)
       (set_timestamp (time_time (clock_reads s))
          (set_clock_reads (S (clock_reads s)) (set_messages [] s2)))).

(** The operations of one batch window carry [base + 1], [base + 2], ... *)
Definition window (base : Z) (ops : list Operation) : Prop :=
  forall n op, ops !! n = Some op -> sequence op = base + Z.of_nat (S n).

(** The i-th request carries the window based at the i-th clock reading. *)
Definition sent_windows (s : Locals) : Prop :=
  forall i req, requests s !! i = Some req ->
    window (time_time i) (payload_messages (req_body req)).

(** What holds of every state the function is ever in. *)
Record Weak (s : Locals) : Prop := {
  weak_count : batch_size s = Z.of_nat (length (messages s));
  weak_window : window (timestamp s) (messages s);
  weak_sent : sent_windows s;
  weak_stdout : forall v, ~ In (StateLine v) (stdout s)
}.

(** What holds whenever a line is about to be read. *)
Record Inv (s : Locals) : Prop := {
  inv_weak : Weak s;
  inv_clock : clock_reads s = S (length (requests s));
  inv_base : timestamp s = time_time (length (requests s));
  inv_schema : messages s <> [] -> is_Some (schema s);
  inv_validators : forall k, is_Some (schemas s !! k) -> is_Some (validators s !! k)
}.

(** The state the loop starts in. *)
Definition started : Locals := fst (prologue boot).

(** The state the run is in when it has read [lines]. *)
Definition after_lines (config : Config) (lines : list string)
  : Locals * result unit :=
  (prologue ;;; loop config lines) boot.

(** What a line means for the checkpoint, read off the message alone. *)
Inductive event : Type :=
| EvRecord                 (* a RECORD message *)
| EvState (value : json)   (* a STATE message and its value *)
| EvOther.

Definition event_of (line : string) : event :=
  match loads line with
  | Some o =>
      match py_getitem o "type" with
      | Ok t =>
          if is_str "RECORD" t then EvRecord
          else if is_str "STATE" t then
            match py_getitem o "value" with
            | Ok v => EvState v
            | Raise _ => EvOther
            end
          else EvOther
      | Raise _ => EvOther
      end
  | None => EvOther
  end.

(** Going back from the end of the input to the most recent RECORD or
    STATE message: a STATE message gives its value, a RECORD message or
    the start of the input gives none. *)
Fixpoint most_recent (newest_first : list event) : json :=
  match newest_first with
  | [] => JNull
  | EvRecord :: _ => JNull
  | EvState v :: _ => v
  | EvOther :: older => most_recent older
  end.

(** The most recent STATE value that no RECORD message follows. *)
Definition expected_checkpoint (lines : list string) : json :=
  most_recent (rev (map event_of lines)).

(** The checkpoint lines among what was printed. *)
Fixpoint checkpoint_lines (out : list Output) : list json :=
  match out with
  | [] => []
  | StateLine v :: rest => v :: checkpoint_lines rest
  | _ :: rest => checkpoint_lines rest
  end.

(** What one message does to the checkpoint that is held. *)
Definition apply_event (held : json) (ev : event) : json :=
  match ev with
  | EvRecord => JNull
  | EvState v => v
  | EvOther => held
  end.

(** The ASCII characters [str.isspace] accepts: tab, line feed, vertical
    tab, form feed, carriage return, the four separators 28-31, space. *)
Definition is_space (c : ascii) : bool :=
  let n := code c in
  ((9 <=? n)%N && (n <=? 13)%N) || ((28 <=? n)%N && (n <=? 32)%N).

(** A line that is empty or holds only whitespace. *)
Definition blank (line : string) : bool :=
  forallb is_space (list_ascii_of_string line).

(** The stream a line declares, when the line is a SCHEMA message. *)
Definition declared_stream (line : string) : option pykey :=
  match loads line with
  | Some o =>
      match py_getitem o "type", py_getitem o "stream" with
      | Ok t, Ok stream =>
          if is_str "SCHEMA" t then
            match py_hash stream with Ok k => Some k | Raise _ => None end
          else None
      | _, _ => None
      end
  | None => None
  end.

(** Every sequence number assigned so far, in order of assignment: those
    of the requests sent, then those of the pending operations. *)
Definition assigned (s : Locals) : list Z :=
  concat (sent s) ++ map sequence (messages s).

(** The clock readings are far enough apart for a full window. *)
Definition clock_gap (config : Config) : Prop :=
  forall n, time_time n + (max_batch_size config + 1) <= time_time (S n).

(** The numbers assigned so far increase and stay within the current
    window. *)
Record Increasing (config : Config) (s : Locals) : Prop := {
  inc_inv : Inv s;
  inc_bound : batch_size s <= max_batch_size config;
  inc_sorted : StronglySorted Z.lt (assigned s);
  inc_below : List.Forall (fun x => x <= timestamp s + batch_size s) (assigned s)
}.

(** The record a line carries, when the line is a RECORD message. *)
Definition record_of (line : string) : option json :=
  match loads line with
  | Some o =>
      match py_getitem o "type", py_getitem o "record" with
      | Ok t, Ok rec => if is_str "RECORD" t then Some rec else None
      | _, _ => None
      end
  | None => None
  end.

(** The records of the requests sent, in the order they were sent. *)
Definition sent_data (s : Locals) : list json :=
  concat (map (fun r => map data (payload_messages (req_body r))) (requests s)).

(** The stream, schema and key properties a complete SCHEMA message
    declares. *)
Definition declaration (line : string) : option (pykey * (json * json)) :=
  match loads line with
  | Some o =>
      match py_getitem o "type", py_getitem o "stream",
            py_getitem o "schema", py_getitem o "key_properties" with
      | Ok t, Ok stream, Ok sch, Ok kp =>
          if is_str "SCHEMA" t then
            match py_hash stream with
            | Ok k => Some (k, (sch, kp))
            | Raise _ => None
            end
          else None
      | _, _, _, _ => None
      end
  | None => None
  end.

(** The declaration of the stream [k] that stands after one more line. *)
Definition declare_step (k : pykey) (cur : option (json * json)) (line : string)
  : option (json * json) :=
  match declaration line with
  | Some (k', d) => if decide (k' = k) then Some d else cur
  | None => cur
  end.

(** The most recent declaration of the stream [k] among [lines]. *)
Definition last_declaration (k : pykey) (lines : list string)
  : option (json * json) :=
  fold_left (declare_step k) lines None.

(** What the registries hold for the stream [k] when its declaration in
    force is [cur]. *)
Definition registered (k : pykey) (cur : option (json * json)) (s : Locals)
  : Prop :=
  schemas s !! k = fst <$> cur /\
  key_properties s !! k = snd <$> cur /\
  match cur with
  | Some (sch, _) =>
      exists v, validators s !! k = Some v /\ Draft4Validator sch = Ok v
  | None => validators s !! k = None
  end.

(** The batch numbers announced on standard output, and the response
    bodies printed. *)
Fixpoint batch_ordinals (out : list Output) : list Z :=
  match out with
  | [] => []
  | SendingBatch n :: rest => n :: batch_ordinals rest
  | _ :: rest => batch_ordinals rest
  end.

Fixpoint response_bodies (out : list Output) : list string :=
  match out with
  | [] => []
  | ResponseBody b :: rest => b :: response_bodies rest
  | _ :: rest => response_bodies rest
  end.

(** The operation appended for the record [rec] in the state [s]. *)
Definition operation_for (rec : json) (s : Locals) : Operation :=
  {| action := "upsert"; data := rec;
     sequence := timestamp s + (batch_size s + 1) |}.

(** The records sent and pending, in the order of arrival. *)
Definition all_data (s : Locals) : list json :=
  sent_data s ++ map data (messages s).

(** Batches are announced with the numbers 1, 2, ..., one per request,
    and every request had its response printed. *)
Definition Announced (s : Locals) : Prop :=
  batch_ordinals (stdout s) = map Z.of_nat (seq 1 (length (requests s))) /\
  number_of_the_current_batch s = Z.of_nat (S (length (requests s))) /\
  length (response_bodies (stdout s)) = length (requests s).

(** A request that holds one operation more than the threshold. *)
Definition full_batch (config : Config) (req : Request) : Prop :=
  Z.of_nat (length (payload_messages (req_body req))) = max_batch_size config + 1.

(** A request built by [post_data] from the configuration. *)
Definition addressed (config : Config) (req : Request) : Prop :=
  exists sch ops, req = request_of config sch ops.

(** ** Properties *)

Lemma is_str_true k t : is_str k t = true <-> t = JString k.
Proof.
  destruct t; simpl; split; try discriminate.
  - intros H. apply String.eqb_eq in H. by subst.
  - intros [= ->]. apply String.eqb_refl.
Qed.

Ltac exec :=
  unfold dispatch, on_record, on_state, on_schema, bind, lift, raise, ret,
    modify, get in *.

Lemma dispatch_ok line s s' :
  dispatch line s = (s', Ok tt) -> handled line s s'.
Proof.
  exec. intros H.
  repeat case_match; simplify_eq/=.
  all: repeat match goal with
         | H : is_str _ _ = true |- _ => apply is_str_true in H; subst
         | u : unit |- _ => destruct u
         end.
  - eapply handled_record; eauto.
  - eapply handled_state; eauto.
  - eapply handled_schema; eauto.
Qed.

Lemma handled_dispatch line s s' :
  handled line s s' -> dispatch line s = (s', Ok tt).
Proof.
  assert (Hin : forall o k v, py_getitem o k = Ok v -> py_in k o = Ok true).
  { intros [] k v; simpl; try discriminate. unfold dict_in.
    destruct (dict_get k d); [done | discriminate]. }
  destruct 1;
    repeat match goal with
           | H : py_getitem _ _ = Ok _ |- _ =>
               pose proof (Hin _ _ _ H); revert H
           end; intros; exec.
  all: repeat match goal with H : _ = _ |- _ => rewrite H; simpl end.
  all: reflexivity.
Qed.

Lemma dispatch_raise line s s' e :
  dispatch line s = (s', Raise e) -> same_batch s s'.
Proof.
  exec. unfold same_batch. intros H.
  repeat case_match; simplify_eq/=; done.
Qed.

(** *** The threshold check, case by case *)

Lemma check_threshold_below config s :
  batch_size s <= max_batch_size config ->
  check_threshold config s = (s, Ok tt).
Proof.
  intros H. unfold check_threshold, bind, get, ret.
  fold (max_batch_size config).
  destruct (Z.gtb_spec (batch_size s) (max_batch_size config)); [lia | done].
Qed.

Lemma check_threshold_above config s :
  max_batch_size config < batch_size s ->
  check_threshold config s =
    match schema s with
    | None => (announced s, Raise (UnboundLocalError "schema"))
    | Some sch =>
        match getresponse (length (requests s))
                (request_of config sch (messages s)) with
        | Raise e => (posting config sch (announced s), Raise e)
        | Ok body => (flushed config sch body s, Ok tt)
        end
    end.
Proof.
  intros H. unfold check_threshold, bind, get, ret.
  fold (max_batch_size config).
  destruct (Z.gtb_spec (batch_size s) (max_batch_size config)); [| lia].
  unfold submit, read_schema, print, post_data, now, bind, get, modify, lift,
    raise, ret. simpl.
  destruct (schema s); [| done]. simpl.
  fold (request_of config j (messages s)).
  destruct (getresponse _ _); done.
Qed.

Lemma submit_eq config s :
  submit config s =
    match schema s with
    | None => (s, Raise (UnboundLocalError "schema"))
    | Some sch =>
        match getresponse (length (requests s))
                (request_of config sch (messages s)) with
        | Raise e => (posting config sch s, Raise e)
        | Ok body =>
            (set_stdout (stdout s ++ [ResponseBody body]) (posting config sch s),
             Ok tt)
        end
    end.
Proof.
  unfold submit, read_schema, print, post_data, now, bind, get, modify, lift,
    raise, ret. simpl.
  destruct (schema s); [| done]. simpl.
  fold (request_of config j (messages s)).
  destruct (getresponse _ _); done.
Qed.

Lemma loop_app config l1 l2 s :
  loop config (l1 ++ l2) s =
    match loop config l1 s with
    | (s', Ok _) => loop config l2 s'
    | (s', Raise e) => (s', Raise e)
    end.
Proof.
  revert s. induction l1 as [| line l1 IH]; intros s; simpl; [done |].
  unfold bind. destruct (persist_line config line s) as [s1 [[] | e]]; [| done].
  apply IH.
Qed.

Lemma loop_ok_ind (P : Locals -> Prop) config :
  (forall s line s', P s -> persist_line config line s = (s', Ok tt) -> P s') ->
  forall lines s s', P s -> loop config lines s = (s', Ok tt) -> P s'.
Proof.
  intros Hstep. induction lines as [| line lines IH]; intros s s' HP; simpl.
  - intros [= <-]. done.
  - unfold bind. destruct (persist_line config line s) as [s1 [[] | e]] eqn:E;
      [| discriminate].
    intros Hl. eapply IH; [| exact Hl]. eapply Hstep; eauto.
Qed.

Lemma loop_raise config lines s s' e :
  loop config lines s = (s', Raise e) ->
  exists pre line post s1,
    lines = pre ++ line :: post /\
    loop config pre s = (s1, Ok tt) /\
    persist_line config line s1 = (s', Raise e).
Proof.
  revert s. induction lines as [| line lines IH]; intros s; simpl; [done |].
  unfold bind. destruct (persist_line config line s) as [s1 [[] | e1]] eqn:E.
  - intros Hl. destruct (IH _ Hl) as (pre & l & post & s2 & -> & Hpre & Hline).
    exists (line :: pre), l, post, s2. split; [done |]. split; [| done].
    simpl. unfold bind. by rewrite E.
  - intros [= <- <-]. by exists [], line, lines, s.
Qed.

Lemma persist_line_inv config line s s' r :
  persist_line config line s = (s', r) ->
  (exists e, r = Raise e /\ dispatch line s = (s', Raise e)) \/
  (exists s1, handled line s s1 /\ check_threshold config s1 = (s', r)).
Proof.
  unfold persist_line, bind.
  destruct (dispatch line s) as [s1 [[] | e]] eqn:E.
  - intros H. right. exists s1. split; [by apply dispatch_ok | done].
  - intros [= <- <-]. left. by exists e.
Qed.

Lemma persist_line_handled config line s s1 :
  handled line s s1 ->
  persist_line config line s = check_threshold config s1.
Proof.
  intros H. unfold persist_line, bind. by rewrite (handled_dispatch _ _ _ H).
Qed.

(** *** Invariants of the loop *)

Lemma window_nil base : window base [].
Proof. intros n op. by rewrite lookup_nil. Qed.

Lemma window_snoc base ops op :
  window base ops ->
  sequence op = base + Z.of_nat (S (length ops)) ->
  window base (ops ++ [op]).
Proof.
  intros Hw Hop n op' Hn.
  apply lookup_app_Some in Hn as [Hn | [Hlen Hn]]; [by apply Hw |].
  apply list_lookup_singleton_Some in Hn as [Hn ->].
  replace n with (length ops) by lia. done.
Qed.

Lemma window_sorted base ops :
  window base ops -> StronglySorted Z.lt (map sequence ops).
Proof.
  revert base. induction ops as [| op ops IH]; intros base Hw; simpl.
  - constructor.
  - constructor.
    + apply (IH (base + 1)). intros n op' Hn.
      rewrite (Hw (S n) op' Hn). lia.
    + apply Forall_forall. intros x Hx. apply in_map_iff in Hx as (op' & <- & Hin).
      apply list_elem_of_In, list_elem_of_lookup in Hin as [n Hn].
      rewrite (Hw 0%nat op eq_refl), (Hw (S n) op' Hn). lia.
Qed.

Lemma sorted_NoDup (l : list Z) : StronglySorted Z.lt l -> List.NoDup l.
Proof.
  induction 1 as [| x l Hl IH Hx]; constructor; [| done].
  intros Hin. rewrite List.Forall_forall in Hx. apply Hx in Hin. lia.
Qed.

Lemma prologue_boot : prologue boot = (started, Ok tt).
Proof. reflexivity. Qed.

Lemma Inv_started : Inv started.
Proof.
  split; [split |..]; simpl.
  - done.
  - apply window_nil.
  - by intros [] req.
  - auto.
  - done.
  - done.
  - done.
  - intros k [x Hx]. by rewrite lookup_empty in Hx.
Qed.

Lemma Inv_handled line s s1 : Inv s -> handled line s s1 -> Inv s1.
Proof.
  intros [[Hc Hw Hs Ho] Hclk Hb Hsch Hv] H. destruct H.
  - split; [split |..]; simpl; [| | done | done | done | done | | done].
    + rewrite length_app. simpl. lia.
    + apply window_snoc; [done |]. simpl. lia.
    + by eexists.
  - split; [split |..]; simpl; done.
  - split; [split |..]; simpl; [done | done | done | done | done | done | done |].
    intros k' Hk'. destruct (decide (k = k')) as [-> |].
    + rewrite lookup_insert_eq. by eexists.
    + rewrite lookup_insert_ne in Hk' by done. rewrite lookup_insert_ne by done. auto.
Qed.

Lemma sent_windows_posting config sch s :
  Inv s -> sent_windows (posting config sch s).
Proof.
  intros [[Hc Hw Hs Ho] Hclk Hb Hsch Hv] i req. simpl. intros Hi.
  apply lookup_app_Some in Hi as [Hi | [Hlen Hi]]; [by apply Hs |].
  apply list_lookup_singleton_Some in Hi as [Hi <-]. simpl.
  replace i with (length (requests s)) by lia. by rewrite <- Hb.
Qed.

Lemma In_snoc {A} (x y : A) l : In x (l ++ [y]) -> In x l \/ x = y.
Proof. rewrite in_app_iff. simpl. intuition. Qed.

Lemma Inv_check config s s' :
  Inv s -> check_threshold config s = (s', Ok tt) -> Inv s'.
Proof.
  intros HI. destruct (Z.le_gt_cases (batch_size s) (max_batch_size config)) as [Hle | Hgt].
  - rewrite check_threshold_below by done. by intros [= <-].
  - rewrite check_threshold_above by done.
    destruct (schema s) as [sch |] eqn:Esch; [| discriminate].
    destruct (getresponse _ _) as [body | e]; [| discriminate].
    intros [= <-]. pose proof (sent_windows_posting config sch s HI) as Hp.
    destruct HI as [[Hc Hw Hs Ho] Hclk Hb Hsch Hv].
    split; [split |..]; simpl; [done | | done | | | | done | done].
    + apply window_nil.
    + intros v Hin. apply In_snoc in Hin as [Hin | ?]; [| done].
      apply In_snoc in Hin as [Hin | ?]; [| done]. by apply (Ho v).
    + rewrite length_app. simpl. lia.
    + rewrite length_app. simpl. rewrite Hclk. f_equal. lia.
Qed.

Lemma Inv_persist_line config line s s' :
  Inv s -> persist_line config line s = (s', Ok tt) -> Inv s'.
Proof.
  intros HI H. apply persist_line_inv in H as [(e & ? & _) | (s1 & Hh & Hc)]; [done |].
  eapply Inv_check; [| exact Hc]. eapply Inv_handled; eauto.
Qed.

Lemma Inv_loop config lines s s' :
  Inv s -> loop config lines s = (s', Ok tt) -> Inv s'.
Proof. apply loop_ok_ind. intros. eapply Inv_persist_line; eauto. Qed.

Lemma Weak_same_batch s s' : Weak s -> same_batch s s' -> Weak s'.
Proof.
  intros [Hc Hw Hs Ho] (Hm & Hb & Ht & _ & Hr & Hout & _).
  split.
  - by rewrite Hb, Hm.
  - by rewrite Ht, Hm.
  - unfold sent_windows. by rewrite Hr.
  - by rewrite Hout.
Qed.

Lemma Weak_check config s s' r :
  Inv s -> check_threshold config s = (s', r) -> Weak s'.
Proof.
  intros HI. destruct r as [[] | e].
  { intros H. eapply inv_weak, Inv_check; eauto. }
  destruct (Z.le_gt_cases (batch_size s) (max_batch_size config)) as [Hle | Hgt].
  - rewrite check_threshold_below by done. discriminate.
  - rewrite check_threshold_above by done.
    pose proof (fun sch => sent_windows_posting config sch (announced s)) as Hp.
    destruct HI as [[Hc Hw Hs Ho] Hclk Hb Hsch Hv].
    assert (Hann : forall v, ~ In (StateLine v) (stdout (announced s))).
    { simpl. intros v Hin. apply In_snoc in Hin as [Hin | ?]; [| done]. by apply (Ho v). }
    destruct (schema s) as [sch |] eqn:Esch.
    + destruct (getresponse _ _) as [body | e']; [discriminate |].
      intros [= <- <-]. split; simpl; try done.
      apply (Hp sch). split; [split |..]; simpl; done.
    + intros [= <- <-]. split; simpl; done.
Qed.

Lemma Weak_persist_line config line s s' r :
  Inv s -> persist_line config line s = (s', r) -> Weak s'.
Proof.
  intros HI H. apply persist_line_inv in H as [(e & -> & H) | (s1 & Hh & Hc)].
  - eapply Weak_same_batch; [apply HI | by eapply dispatch_raise].
  - eapply Weak_check; [| exact Hc]. eapply Inv_handled; eauto.
Qed.

Lemma Weak_loop config lines s s' r :
  Inv s -> loop config lines s = (s', r) -> Weak s'.
Proof.
  intros HI. destruct r as [[] | e]; intros H.
  - eapply inv_weak, Inv_loop; eauto.
  - apply loop_raise in H as (pre & line & post & s1 & -> & Hpre & Hline).
    eapply Weak_persist_line; [| exact Hline]. eapply Inv_loop; eauto.
Qed.

(** *** The whole run *)

Lemma after_lines_eq config lines :
  after_lines config lines = loop config lines started.
Proof. reflexivity. Qed.

Lemma epilogue_eq config s :
  epilogue config s =
    match messages s with
    | [] => (s, Ok (state s))
    | _ :: _ =>
        match submit config s with
        | (s', Ok _) => (s', Ok (state s'))
        | (s', Raise e) => (s', Raise e)
        end
    end.
Proof.
  unfold epilogue, bind, get, ret. destruct (messages s); simpl; [done |].
  by destruct (submit config s) as [s' [[] | e]].
Qed.

Lemma persist_lines_eq config lines :
  persist_lines config lines boot =
    match after_lines config lines with
    | (s, Ok _) => epilogue config s
    | (s, Raise e) => (s, Raise e)
    end.
Proof.
  rewrite after_lines_eq. unfold persist_lines, bind. rewrite prologue_boot.
  by destruct (loop config lines started) as [s [[] | e]].
Qed.

Lemma after_lines_app config l1 l2 :
  after_lines config (l1 ++ l2) =
    match after_lines config l1 with
    | (s, Ok _) => loop config l2 s
    | (s, Raise e) => (s, Raise e)
    end.
Proof. rewrite !after_lines_eq. apply loop_app. Qed.

(** A line that makes its iteration raise ends the run there, whatever
    follows it. *)
Lemma run_aborts config lines line rest s s' e :
  after_lines config lines = (s, Ok tt) ->
  persist_line config line s = (s', Raise e) ->
  persist_lines config (lines ++ line :: rest) boot = (s', Raise e).
Proof.
  intros Hpre Hline. rewrite persist_lines_eq, after_lines_app, Hpre. simpl.
  unfold bind. by rewrite Hline.
Qed.

Lemma dispatch_aborts config line s s' e :
  dispatch line s = (s', Raise e) ->
  persist_line config line s = (s', Raise e).
Proof. intros H. unfold persist_line, bind. by rewrite H. Qed.

Lemma Inv_after_lines config lines s :
  after_lines config lines = (s, Ok tt) -> Inv s.
Proof. rewrite after_lines_eq. apply Inv_loop, Inv_started. Qed.

Lemma Weak_epilogue config s s' r :
  Inv s -> epilogue config s = (s', r) -> Weak s'.
Proof.
  intros HI. rewrite epilogue_eq, submit_eq.
  pose proof (sent_windows_posting config) as Hp.
  destruct (messages s) as [| op ops] eqn:Em.
  { intros [= <- <-]. apply HI. }
  destruct (schema s) as [sch |] eqn:Esch.
  - specialize (Hp sch s HI). destruct HI as [[Hc Hw Hs Ho] _ _ _ _].
    destruct (getresponse _ _) as [body | e]; intros [= <- <-].
    + split; simpl; [done | done | done |].
      intros v Hin. apply In_snoc in Hin as [Hin | ?]; [| done]. by apply (Ho v).
    + split; simpl; done.
  - intros [= <- <-]. apply HI.
Qed.

Lemma Weak_persist_lines config lines s r :
  persist_lines config lines boot = (s, r) -> Weak s.
Proof.
  rewrite persist_lines_eq.
  destruct (after_lines config lines) as [s1 [[] | e]] eqn:E.
  - apply Weak_epilogue. by eapply Inv_after_lines.
  - intros [= <- <-]. rewrite after_lines_eq in E.
    eapply Weak_loop; [apply Inv_started | exact E].
Qed.

(** ** Sequence numbers within a batch window *)

(** C8: within one batch window the n-th accepted record gets the
    window's base timestamp plus n.  This holds of the operations still
    pending when the run ends or aborts (base: the current [timestamp])
    and of every request that was sent (base of the i-th request: the
    i-th reading of the clock); the numbers of one window are therefore
    strictly increasing, hence pairwise distinct. *)
Theorem window_sequence_numbers config lines s r :
  persist_lines config lines boot = (s, r) ->
  (forall n op, messages s !! n = Some op ->
     sequence op = timestamp s + Z.of_nat (S n)) /\
  (forall i req n op,
     requests s !! i = Some req ->
     payload_messages (req_body req) !! n = Some op ->
     sequence op = time_time i + Z.of_nat (S n)) /\
  StronglySorted Z.lt (map sequence (messages s)) /\
  (forall req, In req (requests s) ->
     StronglySorted Z.lt (map sequence (payload_messages (req_body req))) /\
     List.NoDup (map sequence (payload_messages (req_body req)))).
Proof.
  intros H. apply Weak_persist_lines in H as [_ Hw Hs _].
  split; [exact Hw |]. split; [intros i req n op Hi; by apply Hs |].
  split; [by eapply window_sorted |].
  intros req Hin. apply list_elem_of_In, list_elem_of_lookup in Hin as [i Hi].
  pose proof (window_sorted _ _ (Hs i req Hi)) as Hsorted.
  split; [done |]. by apply sorted_NoDup.
Qed.

(** ** The checkpoint *)

Lemma handled_state_event line s s1 :
  handled line s s1 -> state s1 = apply_event (state s) (event_of line).
Proof.
  destruct 1 as [o stream k sch v rec Hl Ht | o v Hl Ht Hv | o stream k sch v kp Hl Ht];
    unfold event_of; rewrite Hl, Ht; simpl; [done | by rewrite Hv | done].
Qed.

Lemma check_threshold_state config s s' :
  check_threshold config s = (s', Ok tt) -> state s' = state s.
Proof.
  destruct (Z.le_gt_cases (batch_size s) (max_batch_size config)) as [Hle | Hgt].
  - rewrite check_threshold_below by done. by intros [= <-].
  - rewrite check_threshold_above by done.
    destruct (schema s); [| discriminate].
    destruct (getresponse _ _); [| discriminate]. by intros [= <-].
Qed.

Lemma loop_state config lines s s' :
  loop config lines s = (s', Ok tt) ->
  state s' = fold_left apply_event (map event_of lines) (state s).
Proof.
  revert s. induction lines as [| line lines IH]; intros s; simpl.
  - by intros [= <-].
  - unfold bind. destruct (persist_line config line s) as [s1 [[] | e]] eqn:E;
      [| discriminate].
    intros Hl. rewrite (IH _ Hl). f_equal.
    apply persist_line_inv in E as [(e & ? & _) | (s2 & Hh & Hc)]; [done |].
    rewrite (check_threshold_state _ _ _ Hc). by apply handled_state_event.
Qed.

Lemma fold_most_recent evs :
  fold_left apply_event evs JNull = most_recent (rev evs).
Proof.
  induction evs as [| ev evs IH] using rev_ind; [done |].
  rewrite fold_left_app, rev_app_distr. simpl. rewrite IH. by destruct ev.
Qed.

Lemma checkpoint_lines_none out :
  (forall v, ~ In (StateLine v) out) -> checkpoint_lines out = [].
Proof.
  induction out as [| o out IH]; [done |]. intros H.
  destruct o; simpl; [apply IH | apply IH |].
  1,2: intros v Hin; apply (H v); by right.
  exfalso. apply (H v). by left.
Qed.

Lemma checkpoint_lines_app out1 out2 :
  checkpoint_lines (out1 ++ out2) = checkpoint_lines out1 ++ checkpoint_lines out2.
Proof.
  induction out1 as [| o out1 IH]; [done |]. destruct o; simpl; by rewrite ?IH.
Qed.

Lemma epilogue_state config s s' st :
  epilogue config s = (s', Ok st) -> st = state s.
Proof.
  rewrite epilogue_eq, submit_eq. destruct (messages s); [by intros [= <- <-] |].
  destruct (schema s); [| discriminate].
  destruct (getresponse _ _); [| discriminate]. by intros [= <- <-].
Qed.

Lemma persist_lines_checkpoint config lines s0 st :
  persist_lines config lines boot = (s0, Ok st) ->
  st = expected_checkpoint lines.
Proof.
  rewrite persist_lines_eq.
  destruct (after_lines config lines) as [s1 [[] | e]] eqn:E1; [| discriminate].
  intros E. rewrite (epilogue_state _ _ _ _ E). rewrite after_lines_eq in E1.
  rewrite (loop_state _ _ _ _ E1). apply fold_most_recent.
Qed.

Lemma main_inv config lines s :
  main config lines boot = (s, Ok tt) ->
  exists s0 st,
    persist_lines config lines boot = (s0, Ok st) /\
    emit_state st s0 = (s, Ok tt).
Proof.
  unfold main, bind.
  destruct (persist_lines config lines boot) as [s0 [st | e]]; [| discriminate].
  intros H. by exists s0, st.
Qed.

(** C1: when the input was processed to its end without an error, the
    value [persist_lines] returns is the value of the most recent STATE
    message that no RECORD message follows, and none ([JNull]) when a
    RECORD message is the most recent of the two kinds or no STATE
    message was seen; [main] then prints that value as the only
    checkpoint line, and prints no checkpoint line when it is none. *)
Theorem checkpoint_is_most_recent_state config lines s :
  main config lines boot = (s, Ok tt) ->
  (exists s0,
     persist_lines config lines boot = (s0, Ok (expected_checkpoint lines))) /\
  checkpoint_lines (stdout s) =
    match expected_checkpoint lines with
    | JNull => []
    | v => [v]
    end.
Proof.
  intros (s0 & st & E & Hemit)%main_inv.
  pose proof (persist_lines_checkpoint _ _ _ _ E) as ->.
  split; [by exists s0 |].
  pose proof (checkpoint_lines_none _ (weak_stdout _ (Weak_persist_lines _ _ _ _ E)))
    as Hout.
  unfold emit_state, print, modify, ret in Hemit.
  destruct (expected_checkpoint lines); simplify_eq/=;
    rewrite ?checkpoint_lines_app, Hout; done.
Qed.

(** ** Blank lines *)

Lemma start_space c :
  is_space c = true -> start c = Some (LTop, []) \/ start c = None.
Proof.
  destruct c as [[] [] [] [] [] [] [] []]; try discriminate; intros _;
    vm_compute; auto.
Qed.

Lemma lex_blank cs :
  forallb is_space cs = true -> lex LTop cs = Some [] \/ lex LTop cs = None.
Proof.
  induction cs as [| c cs IH]; simpl; [auto |].
  intros [Hc Hcs]%andb_prop.
  destruct (start_space c Hc) as [-> | ->]; [| auto].
  destruct (IH Hcs) as [-> | ->]; auto.
Qed.

Lemma loads_blank line : blank line = true -> loads line = None.
Proof.
  intros H. unfold loads. by destruct (lex_blank _ H) as [-> | ->].
Qed.

(** C9: a line that is empty or holds nothing but whitespace is decoded
    like any other line, and decoding it fails: when the run reaches
    such a line it aborts with the decode error, in the state it was in
    before the line (nothing is appended, sent or printed for it), and
    no later line is read. *)
Theorem blank_line_aborts config lines line rest s :
  blank line = true ->
  after_lines config lines = (s, Ok tt) ->
  persist_lines config (lines ++ line :: rest) boot
  = (s, Raise (JSONDecodeError line)).
Proof.
  intros Hb Hpre. eapply run_aborts; [exact Hpre |].
  apply dispatch_aborts. unfold dispatch. by rewrite (loads_blank _ Hb).
Qed.

(** ** Records of streams that were never declared *)

Lemma handled_schemas line s s1 k :
  handled line s s1 ->
  is_Some (schemas s1 !! k) ->
  is_Some (schemas s !! k) \/ declared_stream line = Some k.
Proof.
  destruct 1 as [| | o stream k' sch v kp Hl Ht Hs Hsch Hk]; simpl; auto.
  destruct (decide (k' = k)) as [-> | Hne].
  - intros _. right. unfold declared_stream. by rewrite Hl, Ht, Hs, Hk.
  - rewrite lookup_insert_ne by done. auto.
Qed.

Lemma check_threshold_schemas config s s' r :
  check_threshold config s = (s', r) ->
  schemas s' = schemas s /\ validators s' = validators s /\
  key_properties s' = key_properties s.
Proof.
  destruct (Z.le_gt_cases (batch_size s) (max_batch_size config)) as [Hle | Hgt].
  - rewrite check_threshold_below by done. by intros [= <- <-].
  - rewrite check_threshold_above by done.
    destruct (schema s); [| by intros [= <- <-]].
    destruct (getresponse _ _); by intros [= <- <-].
Qed.

Lemma loop_schemas config lines s s' k :
  loop config lines s = (s', Ok tt) ->
  is_Some (schemas s' !! k) ->
  is_Some (schemas s !! k) \/ Exists (fun l => declared_stream l = Some k) lines.
Proof.
  revert s. induction lines as [| line lines IH]; intros s; simpl.
  - intros [= <-]. auto.
  - unfold bind. destruct (persist_line config line s) as [s1 [[] | e]] eqn:E;
      [| discriminate].
    intros Hl Hk. destruct (IH _ Hl Hk) as [Hk1 | Hex]; [| by right; right].
    apply persist_line_inv in E as [(e & ? & _) | (s2 & Hh & Hc)]; [done |].
    apply check_threshold_schemas in Hc as (Hc & _). rewrite Hc in Hk1.
    destruct (handled_schemas _ _ _ _ Hh Hk1); [by left | by right; left].
Qed.

(** C5: a RECORD message for a stream that no earlier SCHEMA message
    declared aborts the run with the record-before-schema error.  The
    run stops in the very state it had reached before the line: no
    request is sent for the message, and the operations accumulated so
    far are not sent either.  The stream name is any value a dict takes
    as a key, [k] being its key: names that are equal as Python values,
    such as 1, 1.0 and [true], are one stream, so that a declaration
    under 1 counts for a record under 1.0. *)
Theorem record_before_schema_aborts config lines line rest s o stream k :
  after_lines config lines = (s, Ok tt) ->
  loads line = Some o ->
  py_getitem o "type" = Ok (JString "RECORD") ->
  py_getitem o "stream" = Ok stream ->
  py_hash stream = Ok k ->
  Forall (fun l => declared_stream l <> Some k) lines ->
  persist_lines config (lines ++ line :: rest) boot
  = (s, Raise (RecordBeforeSchema stream)).
Proof.
  intros Hpre Hl Ht Hs Hk Hnone.
  assert (Hnot : schemas s !! k = None).
  { destruct (schemas s !! k) as [sch |] eqn:E; [| done]. exfalso.
    rewrite after_lines_eq in Hpre.
    destruct (loop_schemas _ _ _ _ k Hpre) as [[x Hx] | Hex]; [by eexists | done |].
    apply Exists_exists in Hex as (l & Hin & Hd).
    rewrite List.Forall_forall in Hnone. by apply (Hnone l). }
  eapply run_aborts; [exact Hpre |]. apply dispatch_aborts.
  assert (Hin : py_in "stream" o = Ok true /\ py_in "type" o = Ok true).
  { destruct o; simpl in *; try discriminate. unfold dict_in.
    destruct (dict_get "stream" d), (dict_get "type" d); done. }
  destruct Hin as [Hin1 Hin2].
  unfold dispatch, on_record, bind, lift, raise, get.
  rewrite Hl, Hin2, Ht. simpl. rewrite Hin1, Hs, Hk. simpl. by rewrite Hnot.
Qed.

(** ** Messages that lack a field *)

Lemma py_in_getitem o k v : py_getitem o k = Ok v -> py_in k o = Ok true.
Proof.
  destruct o; simpl; try discriminate. unfold dict_in.
  by destruct (dict_get k d).
Qed.

Lemma py_in_false_getitem o k t :
  py_getitem o "type" = Ok t -> py_in k o = Ok false ->
  py_getitem o k = Raise (KeyError (JString k)).
Proof.
  destruct o; simpl; try discriminate. unfold dict_in.
  by destruct (dict_get k d).
Qed.

(** C10: a RECORD message that names a declared stream and has no
    'record' field makes the lookup of the field raise [KeyError], which
    is none of the exceptions the function raises itself; the run stops
    there with the batch as it was: the record is not appended and
    nothing is sent. *)
Theorem record_field_missing config lines line rest s o stream k sch :
  after_lines config lines = (s, Ok tt) ->
  loads line = Some o ->
  py_getitem o "type" = Ok (JString "RECORD") ->
  py_getitem o "stream" = Ok stream ->
  py_hash stream = Ok k ->
  schemas s !! k = Some sch ->
  py_in "record" o = Ok false ->
  exists s',
    persist_lines config (lines ++ line :: rest) boot
    = (s', Raise (KeyError (JString "record"))) /\
    s' = set_schema (Some sch) s /\
    messages s' = messages s /\ batch_size s' = batch_size s /\
    requests s' = requests s.
Proof.
  intros Hpre Hl Ht Hs Hk Hsch Hrec.
  destruct (inv_validators _ (Inv_after_lines _ _ _ Hpre) k) as [v Hv]; [by eexists |].
  exists (set_schema (Some sch) s). split; [| done].
  eapply run_aborts; [exact Hpre |]. apply dispatch_aborts.
  unfold dispatch, on_record, bind, lift, raise, get, modify.
  rewrite Hl, (py_in_getitem _ _ _ Ht), Ht. simpl.
  rewrite (py_in_getitem _ _ _ Hs), Hs, Hk. simpl. rewrite Hsch, Hv.
  by rewrite (py_in_false_getitem _ _ _ Ht Hrec).
Qed.

(** C7, as the code has it: a SCHEMA message without 'key_properties'
    (that has 'stream' and 'schema', and whose validator could be built)
    fails with the key_properties error, and no key-properties entry is
    registered; the schema and the validator of the stream, however,
    have been replaced by then. *)
Theorem key_properties_missing config lines line rest s o stream sch k v :
  after_lines config lines = (s, Ok tt) ->
  loads line = Some o ->
  py_getitem o "type" = Ok (JString "SCHEMA") ->
  py_getitem o "stream" = Ok stream ->
  py_getitem o "schema" = Ok sch ->
  py_hash stream = Ok k ->
  Draft4Validator sch = Ok v ->
  py_in "key_properties" o = Ok false ->
  exists s',
    persist_lines config (lines ++ line :: rest) boot
    = (s', Raise KeyPropertiesRequired) /\
    key_properties s' = key_properties s /\
    schemas s' = <[k := sch]> (schemas s) /\
    validators s' = <[k := v]> (validators s).
Proof.
  intros Hpre Hl Ht Hs Hsch Hk Hv Hkp.
  exists (set_validators (<[k := v]> (validators s))
            (set_schemas (<[k := sch]> (schemas s)) s)).
  split; [| done].
  eapply run_aborts; [exact Hpre |]. apply dispatch_aborts.
  unfold dispatch, on_schema, bind, lift, raise, get, modify.
  rewrite Hl, (py_in_getitem _ _ _ Ht), Ht. simpl.
  rewrite (py_in_getitem _ _ _ Hs), Hs, Hsch, Hk. simpl. rewrite Hv. simpl.
  by rewrite Hkp.
Qed.

(** C6, as the code has it: the function does not inspect the schema
    document; it hands it to the validator's constructor.  When that
    constructor raises, the run is rejected at the declaration, before
    any later line is read; the schema entry of the stream has been
    replaced by then, the validator entry has not. *)
Theorem schema_refused_by_constructor config lines line rest s o stream sch k e :
  after_lines config lines = (s, Ok tt) ->
  loads line = Some o ->
  py_getitem o "type" = Ok (JString "SCHEMA") ->
  py_getitem o "stream" = Ok stream ->
  py_getitem o "schema" = Ok sch ->
  py_hash stream = Ok k ->
  Draft4Validator sch = Raise e ->
  exists s',
    persist_lines config (lines ++ line :: rest) boot = (s', Raise e) /\
    schemas s' = <[k := sch]> (schemas s) /\
    validators s' = validators s /\
    key_properties s' = key_properties s /\
    messages s' = messages s /\ requests s' = requests s.
Proof.
  intros Hpre Hl Ht Hs Hsch Hk Hv.
  exists (set_schemas (<[k := sch]> (schemas s)) s). split; [| done].
  eapply run_aborts; [exact Hpre |]. apply dispatch_aborts.
  unfold dispatch, on_schema, bind, lift, raise, get, modify.
  rewrite Hl, (py_in_getitem _ _ _ Ht), Ht. simpl.
  rewrite (py_in_getitem _ _ _ Hs), Hs, Hsch, Hk. simpl. by rewrite Hv.
Qed.

(** ** The threshold *)

Lemma handled_batch_size line s s1 :
  handled line s s1 ->
  batch_size s <= batch_size s1 <= batch_size s + 1 /\
  requests s1 = requests s.
Proof. destruct 1; simpl; split; (lia || done). Qed.

(** When a line is read, the counter is within the threshold. *)
Lemma bounded_persist_line config line s s' :
  0 <= max_batch_size config ->
  batch_size s <= max_batch_size config ->
  persist_line config line s = (s', Ok tt) ->
  batch_size s' <= max_batch_size config.
Proof.
  intros Hmax Hb H.
  apply persist_line_inv in H as [(e & ? & _) | (s1 & Hh & Hc)]; [done |].
  apply handled_batch_size in Hh as [Hh _].
  destruct (Z.le_gt_cases (batch_size s1) (max_batch_size config)) as [Hle | Hgt].
  - rewrite check_threshold_below in Hc by done. by simplify_eq.
  - rewrite check_threshold_above in Hc by done.
    destruct (schema s1); [| discriminate].
    destruct (getresponse _ _); [| discriminate]. by simplify_eq/=.
Qed.

Lemma bounded_after_lines config lines s :
  0 <= max_batch_size config ->
  after_lines config lines = (s, Ok tt) ->
  batch_size s <= max_batch_size config.
Proof.
  intros Hmax. rewrite after_lines_eq.
  apply (loop_ok_ind (fun s => batch_size s <= max_batch_size config)); [| done].
  intros. by eapply bounded_persist_line.
Qed.

(** C2, as the code has it: with a threshold that is not negative, the
    accumulator holds at most [batch_size] operations when a line is
    read and at most [batch_size + 1] when the check after the append
    runs.  A count above the threshold makes that very check send all
    pending operations in one request, within the iteration of the line
    that was just handled, and empty the accumulator when the request
    succeeds; a count within the threshold sends nothing. *)
Theorem threshold_check config lines line s s1 s2 r :
  0 <= max_batch_size config ->
  after_lines config lines = (s, Ok tt) ->
  dispatch line s = (s1, Ok tt) ->
  check_threshold config s1 = (s2, r) ->
  persist_line config line s = (s2, r) /\
  Z.of_nat (length (messages s)) <= max_batch_size config /\
  Z.of_nat (length (messages s1)) <= max_batch_size config + 1 /\
  (max_batch_size config < Z.of_nat (length (messages s1)) ->
     exists sch,
       requests s2 = requests s1 ++ [request_of config sch (messages s1)] /\
       (r = Ok tt -> messages s2 = [])) /\
  (Z.of_nat (length (messages s1)) <= max_batch_size config ->
     s2 = s1 /\ r = Ok tt) /\
  (r = Ok tt -> Z.of_nat (length (messages s2)) <= max_batch_size config).
Proof.
  intros Hmax Hpre Hd Hc.
  pose proof (Inv_after_lines _ _ _ Hpre) as HI.
  pose proof (bounded_after_lines _ _ _ Hmax Hpre) as Hb.
  pose proof (dispatch_ok _ _ _ Hd) as Hh.
  pose proof (Inv_handled _ _ _ HI Hh) as HI1.
  pose proof (weak_count _ (inv_weak _ HI)) as Hn.
  pose proof (weak_count _ (inv_weak _ HI1)) as Hn1.
  pose proof (handled_batch_size _ _ _ Hh) as [Hstep _].
  split; [by rewrite (persist_line_handled config _ _ _ Hh) |].
  split; [lia |]. split; [lia |].
  destruct (Z.le_gt_cases (batch_size s1) (max_batch_size config)) as [Hle | Hgt].
  - rewrite check_threshold_below in Hc by done. simplify_eq.
    split; [lia |]. split; [done |]. lia.
  - rewrite check_threshold_above in Hc by lia.
    destruct (inv_schema _ HI1) as [sch Hsch].
    { intros Hnil. rewrite Hnil in Hn1. simpl in Hn1. lia. }
    rewrite Hsch in Hc.
    destruct (getresponse _ _) as [body | e]; simplify_eq/=.
    + split; [intros _; by exists sch |]. split; [intros; lia |]. simpl. lia.
    + split; [intros _; by exists sch |]. split; [intros; lia | done].
Qed.

(** C3, as the code has it: with a threshold of 1, a SCHEMA declaration
    followed by two valid records of that stream, and no STATE message,
    a run that ends without error has sent exactly one request, which
    holds both operations, and has printed no checkpoint. *)
Theorem two_records_one_flush config l0 l1 l2 k s :
  cfg_batch_size config = Some 1 ->
  declared_stream l0 = Some k ->
  event_of l1 = EvRecord ->
  event_of l2 = EvRecord ->
  main config [l0; l1; l2] boot = (s, Ok tt) ->
  (exists req,
     requests s = [req] /\ length (payload_messages (req_body req)) = 2%nat) /\
  checkpoint_lines (stdout s) = [].
Proof.
  intros Hcfg Hd H1 H2 Hmain.
  assert (Hmax : max_batch_size config = 1) by (unfold max_batch_size; by rewrite Hcfg).
  assert (Hrec : forall line a b, event_of line = EvRecord -> handled line a b ->
            batch_size b = batch_size a + 1 /\ requests b = requests a /\
            length (messages b) = S (length (messages a))).
  { intros line a b He Hh.
    destruct Hh as [| o v Hl Ht Hv | o stream k' sch v kp Hl Ht]; simpl.
    - rewrite length_app. simpl. split; [done |]. split; [done | lia].
    - unfold event_of in He. rewrite Hl, Ht in He. simpl in He. by rewrite Hv in He.
    - unfold event_of in He. by rewrite Hl, Ht in He. }
  assert (Hsch : forall a b, handled l0 a b ->
            batch_size b = batch_size a /\ requests b = requests a /\
            messages b = messages a).
  { intros a b Hh.
    destruct Hh as [o stream k' sch v rec Hl Ht | o v Hl Ht | ]; simpl; [| | done].
    - unfold declared_stream in Hd. rewrite Hl, Ht in Hd. simpl in Hd.
      by destruct (py_getitem o "stream").
    - unfold declared_stream in Hd. rewrite Hl, Ht in Hd. simpl in Hd.
      by destruct (py_getitem o "stream"). }
  destruct (main_inv _ _ _ Hmain) as (sf & st & Hrun & Hemit).
  assert (Hexp : expected_checkpoint [l0; l1; l2] = JNull).
  { unfold expected_checkpoint. simpl. by rewrite H2. }
  pose proof (persist_lines_checkpoint _ _ _ _ Hrun) as ->.
  rewrite Hexp in Hrun, Hemit.
  unfold emit_state, ret in Hemit. simplify_eq.
  split; [| apply checkpoint_lines_none,
              (weak_stdout _ (Weak_persist_lines _ _ _ _ Hrun))].
  clear Hmain Hexp.
  rewrite persist_lines_eq, after_lines_eq in Hrun. simpl in Hrun.
  unfold bind in Hrun.
  destruct (persist_line config l0 started) as [sa [[] | e]] eqn:E0; [| done].
  destruct (persist_line config l1 sa) as [sb [[] | e]] eqn:E1; [| done].
  destruct (persist_line config l2 sb) as [sc [[] | e]] eqn:E2; [| done].
  unfold ret in Hrun.
  pose proof (Inv_persist_line _ _ _ _ Inv_started E0) as Ia.
  pose proof (Inv_persist_line _ _ _ _ Ia E1) as Ib.
  apply persist_line_inv in E0 as [(e & ? & _) | (ta & Ha & Ca)]; [done |].
  apply persist_line_inv in E1 as [(e & ? & _) | (tb & Hb & Cb)]; [done |].
  apply persist_line_inv in E2 as [(e & ? & _) | (tc & Hc & Cc)]; [done |].
  apply Hsch in Ha as (Ha1 & Ha2 & Ha3). simpl in Ha1, Ha2, Ha3.
  rewrite check_threshold_below in Ca by (rewrite Hmax; lia). simplify_eq.
  pose proof (Inv_handled _ _ _ Ia Hb) as Itb.
  apply (Hrec _ _ _ H1) in Hb as (Hb1 & Hb2 & Hb3).
  rewrite check_threshold_below in Cb by (rewrite Hmax; lia). simplify_eq.
  pose proof (Inv_handled _ _ _ Ib Hc) as Itc.
  apply (Hrec _ _ _ H2) in Hc as (Hc1 & Hc2 & Hc3).
  rewrite check_threshold_above in Cc by (rewrite Hmax; lia).
  destruct (schema tc) as [sch |]; [| done].
  destruct (getresponse _ _) as [body | e]; [| done]. simplify_eq.
  rewrite epilogue_eq in Hrun. simpl in Hrun. simplify_eq/=.
  exists (request_of config sch (messages tc)).
  rewrite Hc2, Hb2, Ha2. split; [done |]. simpl. rewrite Hc3, Hb3, Ha3. done.
Qed.

(** ** Sequence numbers across batch windows *)

Lemma sorted_snoc (l : list Z) x :
  StronglySorted Z.lt l -> List.Forall (fun y => y < x) l ->
  StronglySorted Z.lt (l ++ [x]).
Proof.
  induction 1 as [| y l Hl IH Hy]; intros Hx; simpl.
  - repeat constructor.
  - pose proof (List.Forall_inv Hx) as Hyx.
    pose proof (List.Forall_inv_tail Hx) as Hx'.
    constructor; [by apply IH |].
    apply List.Forall_app. split; [done |]. by constructor.
Qed.

Lemma Forall_weaken (P Q : Z -> Prop) l :
  List.Forall P l -> (forall x, P x -> Q x) -> List.Forall Q l.
Proof. intros H HPQ. eapply List.Forall_impl; [exact HPQ | exact H]. Qed.

Lemma assigned_handled line s s1 :
  handled line s s1 ->
  assigned s1 = assigned s /\ batch_size s1 = batch_size s /\
  timestamp s1 = timestamp s
  \/ assigned s1 = assigned s ++ [timestamp s + (batch_size s + 1)] /\
     batch_size s1 = batch_size s + 1 /\ timestamp s1 = timestamp s.
Proof.
  destruct 1; [right | left | left]; try done.
  unfold assigned, sent. simpl. by rewrite map_app, app_assoc.
Qed.

Lemma assigned_flushed config sch body s :
  assigned (flushed config sch body s) = assigned s.
Proof.
  unfold assigned, sent. simpl.
  by rewrite !map_app, concat_app, app_nil_r; simpl; rewrite app_nil_r.
Qed.

Lemma Increasing_persist_line config line s s' :
  0 <= max_batch_size config ->
  clock_gap config ->
  Increasing config s ->
  persist_line config line s = (s', Ok tt) ->
  Increasing config s'.
Proof.
  intros Hmax Hgap [HI Hb Hs Hbelow] H.
  pose proof (Inv_persist_line _ _ _ _ HI H) as HI'.
  pose proof (bounded_persist_line _ _ _ _ Hmax Hb H) as Hb'.
  apply persist_line_inv in H as [(e & ? & _) | (s1 & Hh & Hc)]; [done |].
  pose proof (Inv_handled _ _ _ HI Hh) as HI1.
  assert (H1 : StronglySorted Z.lt (assigned s1) /\
               List.Forall (fun x => x <= timestamp s1 + batch_size s1) (assigned s1) /\
               batch_size s1 <= max_batch_size config + 1).
  { destruct (assigned_handled _ _ _ Hh) as [(-> & -> & ->) | (-> & -> & ->)].
    - split; [done |]. split; [done | lia].
    - split; [| split; [| lia]].
      + apply sorted_snoc; [done |].
        apply (Forall_weaken _ _ _ Hbelow). intros; lia.
      + apply List.Forall_app. split.
        * apply (Forall_weaken _ _ _ Hbelow). intros; lia.
        * constructor; [lia | constructor]. }
  destruct H1 as (Hs1 & Hbelow1 & Hb1).
  destruct (Z.le_gt_cases (batch_size s1) (max_batch_size config)) as [Hle | Hgt].
  { rewrite check_threshold_below in Hc by done. by simplify_eq. }
  rewrite check_threshold_above in Hc by done.
  destruct (schema s1) as [sch |]; [| discriminate].
  destruct (getresponse _ _) as [body | e]; [| discriminate]. simplify_eq.
  split; [done | done | by rewrite assigned_flushed |].
  rewrite assigned_flushed. simpl.
  apply (Forall_weaken _ _ _ Hbelow1). intros x Hx.
  pose proof (Hgap (length (requests s1))) as Hg.
  rewrite <- (inv_base _ HI1), <- (inv_clock _ HI1) in Hg. lia.
Qed.

Lemma Increasing_after_lines config lines s :
  0 <= max_batch_size config ->
  clock_gap config ->
  after_lines config lines = (s, Ok tt) ->
  Increasing config s.
Proof.
  intros Hmax Hgap. rewrite after_lines_eq.
  apply (loop_ok_ind (Increasing config)).
  - intros. by eapply Increasing_persist_line.
  - split; [apply Inv_started | done | constructor | constructor].
Qed.

(** C4, as the code has it: sequence numbers are base timestamp plus
    position, and the base is read from a clock that counts seconds, so
    two windows may share numbers.  They are unique within the whole run
    when every reading of the clock after a flush is at least the
    previous reading plus the size of a full batch ([batch_size + 1]):
    then the numbers assigned in a run that ends without error, taken
    in the order they were sent, are strictly increasing, hence pairwise
    distinct; the same holds, at any point of the run, of the numbers
    sent and pending. *)
Theorem sequence_numbers_unique_with_clock_gap config lines s st :
  0 <= max_batch_size config ->
  clock_gap config ->
  persist_lines config lines boot = (s, Ok st) ->
  StronglySorted Z.lt (concat (sent s)) /\
  List.NoDup (concat (sent s)) /\
  (forall lines' s', after_lines config lines' = (s', Ok tt) ->
     List.NoDup (assigned s')).
Proof.
  intros Hmax Hgap Hrun.
  assert (Hany : forall lines' s', after_lines config lines' = (s', Ok tt) ->
            StronglySorted Z.lt (assigned s')).
  { intros lines' s' H.
    apply (inc_sorted _ _ (Increasing_after_lines _ _ _ Hmax Hgap H)). }
  assert (Hs : StronglySorted Z.lt (concat (sent s))).
  { rewrite persist_lines_eq in Hrun.
    destruct (after_lines config lines) as [s1 [[] | e]] eqn:E; [| discriminate].
    specialize (Hany _ _ E). rewrite epilogue_eq, submit_eq in Hrun.
    unfold assigned in Hany.
    destruct (messages s1) as [| op ops] eqn:Em.
    - simplify_eq. simpl in Hany. by rewrite app_nil_r in Hany.
    - destruct (schema s1); [| discriminate].
      destruct (getresponse _ _); [| discriminate]. simplify_eq.
      unfold sent. simpl. rewrite map_app, concat_app. simpl.
      by rewrite app_nil_r, Em. }
  split; [done |]. split; [by apply sorted_NoDup |].
  intros lines' s' H. apply sorted_NoDup. by apply (Hany lines').
Qed.

(** ** Further properties of [persist_lines] *)

(** *** How a line was handled, from its type *)

Lemma handled_as_record line s s1 o :
  handled line s s1 ->
  loads line = Some o ->
  py_getitem o "type" = Ok (JString "RECORD") ->
  exists stream k sch v rec,
    py_getitem o "stream" = Ok stream /\ py_hash stream = Ok k /\
    schemas s !! k = Some sch /\ validators s !! k = Some v /\
    py_getitem o "record" = Ok rec /\ validate v rec = Ok tt /\
    s1 = accept sch rec s.
Proof.
  destruct 1 as [o' stream k sch v rec Hl Ht | o' v Hl Ht | o' stream k sch v kp Hl Ht];
    intros Hl' Ht'; rewrite Hl in Hl'; injection Hl' as ->;
    rewrite Ht in Ht'; try discriminate.
  by exists stream, k, sch, v, rec.
Qed.

Lemma handled_record_of line s s1 :
  handled line s s1 ->
  match record_of line with
  | Some rec => exists sch, s1 = accept sch rec s
  | None => messages s1 = messages s /\ requests s1 = requests s
  end.
Proof.
  destruct 1 as [o stream k sch v rec Hl Ht Hs Hk Hsch Hv Hr | o v Hl Ht | o stream k sch v kp Hl Ht];
    unfold record_of; rewrite Hl, Ht.
  - rewrite Hr. simpl. by exists sch.
  - simpl. by destruct (py_getitem o "record").
  - simpl. by destruct (py_getitem o "record").
Qed.

(** *** Every record is sent once, in the order of arrival *)

Lemma check_threshold_all_data config s s' :
  check_threshold config s = (s', Ok tt) -> all_data s' = all_data s.
Proof.
  destruct (Z.le_gt_cases (batch_size s) (max_batch_size config)) as [Hle | Hgt].
  - rewrite check_threshold_below by done. by intros [= <-].
  - rewrite check_threshold_above by done.
    destruct (schema s); [| discriminate].
    destruct (getresponse _ _); [| discriminate]. intros [= <-].
    unfold all_data, sent_data. simpl.
    rewrite map_app, concat_app. simpl. by rewrite !app_nil_r.
Qed.

Lemma loop_all_data config lines s s' :
  loop config lines s = (s', Ok tt) ->
  all_data s' = all_data s ++ omap record_of lines.
Proof.
  revert s. induction lines as [| line lines IH]; intros s; simpl.
  - intros [= <-]. by rewrite app_nil_r.
  - unfold bind. destruct (persist_line config line s) as [s1 [[] | e]] eqn:E;
      [| discriminate].
    intros Hl. rewrite (IH _ Hl).
    apply persist_line_inv in E as [(e & ? & _) | (s2 & Hh & Hc)]; [done |].
    rewrite (check_threshold_all_data _ _ _ Hc).
    apply handled_record_of in Hh.
    destruct (record_of line) as [rec |].
    + destruct Hh as [sch ->]. unfold all_data, sent_data. simpl.
      by rewrite map_app, <- !app_assoc.
    + destruct Hh as [Hm Hr]. unfold all_data, sent_data. by rewrite Hm, Hr.
Qed.

(** X5: in a run that ends without error, the records of the requests
    sent, taken in order, are exactly the records of the RECORD lines of
    the input, in the order of arrival: none is dropped, repeated or
    moved. *)
Theorem every_record_sent_once config lines s st :
  persist_lines config lines boot = (s, Ok st) ->
  sent_data s = omap record_of lines.
Proof.
  rewrite persist_lines_eq.
  destruct (after_lines config lines) as [s1 [[] | e]] eqn:E; [| discriminate].
  rewrite after_lines_eq in E. apply loop_all_data in E.
  change (all_data started) with (@nil json) in E. simpl in E.
  rewrite epilogue_eq, submit_eq. unfold all_data in E.
  destruct (messages s1) as [| op ops] eqn:Em.
  - intros [= <- <-]. simpl in E. by rewrite app_nil_r in E.
  - destruct (schema s1); [| discriminate].
    destruct (getresponse _ _); [| discriminate]. intros [= <- <-].
    unfold sent_data in *. simpl. rewrite map_app, concat_app. simpl.
    by rewrite app_nil_r, Em.
Qed.

(** *** The flush at the end of the input *)

(** X6: at the end of the input, operations that are still pending are
    sent in one more request that holds all of them, whatever the
    threshold; when none is pending nothing is sent and the checkpoint
    held is returned. *)
Theorem end_of_input_flush config lines s s' r :
  after_lines config lines = (s, Ok tt) ->
  persist_lines config lines boot = (s', r) ->
  (messages s = [] -> s' = s /\ r = Ok (state s)) /\
  (messages s <> [] ->
     exists sch,
       schema s = Some sch /\
       requests s' = requests s ++ [request_of config sch (messages s)] /\
       (forall body,
          getresponse (length (requests s)) (request_of config sch (messages s))
          = Ok body -> r = Ok (state s))).
Proof.
  intros Hpre. rewrite persist_lines_eq, Hpre, epilogue_eq, submit_eq.
  pose proof (inv_schema _ (Inv_after_lines _ _ _ Hpre)) as Hsch.
  destruct (messages s) as [| op ops] eqn:Em.
  - intros [= <- <-]. split; [done |]. by intros [].
  - destruct Hsch as [sch Hsch]; [done |]. rewrite Hsch.
    intros H. split; [done |]. intros _. exists sch. split; [done |].
    destruct (getresponse _ _) as [body | e]; simplify_eq/=;
      rewrite Em; split; done.
Qed.

(** *** Records that do not pass validation *)

(** X7: a record its stream's validator refuses aborts the run with the
    validator's exception before it is appended: the batch, the
    requests and the checkpoint held are as before the line. *)
Theorem invalid_record_aborts config lines line rest s o stream k sch v rec e :
  after_lines config lines = (s, Ok tt) ->
  loads line = Some o ->
  py_getitem o "type" = Ok (JString "RECORD") ->
  py_getitem o "stream" = Ok stream ->
  py_hash stream = Ok k ->
  schemas s !! k = Some sch ->
  validators s !! k = Some v ->
  py_getitem o "record" = Ok rec ->
  validate v rec = Raise e ->
  exists s',
    persist_lines config (lines ++ line :: rest) boot = (s', Raise e) /\
    messages s' = messages s /\ batch_size s' = batch_size s /\
    requests s' = requests s /\ state s' = state s.
Proof.
  intros Hpre Hl Ht Hs Hk Hsch Hv Hrec Hval.
  exists (set_schema (Some sch) s). split; [| done].
  eapply run_aborts; [exact Hpre |]. apply dispatch_aborts.
  unfold dispatch, on_record, bind, lift, raise, get, modify.
  rewrite Hl, (py_in_getitem _ _ _ Ht), Ht. simpl.
  rewrite (py_in_getitem _ _ _ Hs), Hs, Hk. simpl. rewrite Hsch, Hv, Hrec.
  by rewrite Hval.
Qed.

(** *** Messages of the wrong shape *)

(** X15: an object without 'type' aborts the run with the missing-key
    error, in the state reached before the line. *)
Theorem line_without_type_aborts config lines line rest s d :
  after_lines config lines = (s, Ok tt) ->
  loads line = Some (JObject d) ->
  dict_get "type" d = None ->
  persist_lines config (lines ++ line :: rest) boot
  = (s, Raise (MissingRequiredKey "type" line)).
Proof.
  intros Hpre Hl Ht. eapply run_aborts; [exact Hpre |]. apply dispatch_aborts.
  unfold dispatch, bind, lift, raise. rewrite Hl. simpl. unfold dict_in.
  by rewrite Ht.
Qed.

(** X14: a line holding JSON that is not an object aborts the run, with
    the missing-key error for 'type' or, where the membership test or
    the subscript does not apply to the value, with [TypeError]. *)
Theorem line_not_an_object_aborts config lines line rest s o :
  after_lines config lines = (s, Ok tt) ->
  loads line = Some o ->
  (forall d, o <> JObject d) ->
  exists e,
    persist_lines config (lines ++ line :: rest) boot = (s, Raise e) /\
    (e = MissingRequiredKey "type" line \/ exists what, e = TypeError what).
Proof.
  intros Hpre Hl Hno.
  assert (H : exists e, dispatch line s = (s, Raise e) /\
            (e = MissingRequiredKey "type" line \/ exists what, e = TypeError what)).
  { unfold dispatch, bind, lift, raise. rewrite Hl.
    destruct o as [| b | n | lit | str | l | d]; simpl;
      try (eexists; split; [reflexivity | right; by eexists]).
    - destruct (is_substring _ _); simpl;
        eexists; (split; [reflexivity |]); [right; by eexists | by left].
    - destruct (existsb _ l); simpl;
        eexists; (split; [reflexivity |]); [right; by eexists | by left].
    - by destruct (Hno d). }
  destruct H as (e & Hd & He). exists e. split; [| done].
  eapply run_aborts; [exact Hpre |]. by apply dispatch_aborts.
Qed.

(** X16: a message whose type is not RECORD, STATE or SCHEMA (compared
    as they are written) aborts the run with the unknown-type error, in
    the state reached before the line. *)
Theorem unknown_type_aborts config lines line rest s o t :
  after_lines config lines = (s, Ok tt) ->
  loads line = Some o ->
  py_getitem o "type" = Ok t ->
  t <> JString "RECORD" -> t <> JString "STATE" -> t <> JString "SCHEMA" ->
  persist_lines config (lines ++ line :: rest) boot
  = (s, Raise (UnknownMessageType t o)).
Proof.
  intros Hpre Hl Ht H1 H2 H3. eapply run_aborts; [exact Hpre |].
  apply dispatch_aborts. unfold dispatch, bind, lift, raise.
  rewrite Hl, (py_in_getitem _ _ _ Ht), Ht. simpl.
  destruct (is_str "RECORD" t) eqn:E1; [by apply is_str_true in E1 |].
  destruct (is_str "STATE" t) eqn:E2; [by apply is_str_true in E2 |].
  destruct (is_str "SCHEMA" t) eqn:E3; [by apply is_str_true in E3 |].
  done.
Qed.

(** X17: a RECORD or SCHEMA message without 'stream' aborts the run with
    the missing-key error, in the state reached before the line. *)
Theorem stream_missing_aborts config lines line rest s o t :
  after_lines config lines = (s, Ok tt) ->
  loads line = Some o ->
  py_getitem o "type" = Ok t ->
  t = JString "RECORD" \/ t = JString "SCHEMA" ->
  py_in "stream" o = Ok false ->
  persist_lines config (lines ++ line :: rest) boot
  = (s, Raise (MissingRequiredKey "stream" line)).
Proof.
  intros Hpre Hl Ht Hkind Hs. eapply run_aborts; [exact Hpre |].
  apply dispatch_aborts.
  unfold dispatch, on_record, on_schema, bind, lift, raise.
  rewrite Hl, (py_in_getitem _ _ _ Ht), Ht. simpl.
  destruct Hkind as [-> | ->]; simpl; by rewrite Hs.
Qed.

(** X18: a STATE message without 'value' makes the lookup of the field
    raise [KeyError]; the run aborts in the state reached before the
    line, the checkpoint held is not changed. *)
Theorem state_value_missing config lines line rest s o :
  after_lines config lines = (s, Ok tt) ->
  loads line = Some o ->
  py_getitem o "type" = Ok (JString "STATE") ->
  py_in "value" o = Ok false ->
  persist_lines config (lines ++ line :: rest) boot
  = (s, Raise (KeyError (JString "value"))).
Proof.
  intros Hpre Hl Ht Hv. eapply run_aborts; [exact Hpre |].
  apply dispatch_aborts.
  unfold dispatch, on_state, bind, lift, raise.
  rewrite Hl, (py_in_getitem _ _ _ Ht), Ht. simpl.
  by rewrite (py_in_false_getitem _ _ _ Ht Hv).
Qed.

(** *** The registries *)

Lemma handled_registered line s s1 k cur :
  handled line s s1 ->
  registered k cur s -> registered k (declare_step k cur line) s1.
Proof.
  intros Hh (Hsch & Hkp & Hval). unfold declare_step, declaration.
  destruct Hh as [o stream k0 sch v rec Hl Ht | o v Hl Ht
                 | o stream k0 sch v kp Hl Ht Hs Hschema Hk Hv Hkps];
    rewrite Hl, Ht; simpl.
  - by destruct (py_getitem o "stream"), (py_getitem o "schema"),
       (py_getitem o "key_properties").
  - by destruct (py_getitem o "stream"), (py_getitem o "schema"),
       (py_getitem o "key_properties").
  - rewrite Hs, Hschema, Hkps, Hk. unfold registered. simpl.
    destruct (decide (k0 = k)) as [-> | Hne].
    + rewrite !lookup_insert_eq. simpl. split; [done |]. split; [done |].
      by exists v.
    + by rewrite !lookup_insert_ne.
Qed.

Lemma check_threshold_registered config s s' k cur :
  check_threshold config s = (s', Ok tt) ->
  registered k cur s -> registered k cur s'.
Proof.
  intros (H1 & H2 & H3)%check_threshold_schemas. unfold registered.
  by rewrite H1, H2, H3.
Qed.

Lemma loop_registered config lines s s' k cur :
  loop config lines s = (s', Ok tt) ->
  registered k cur s ->
  registered k (fold_left (declare_step k) lines cur) s'.
Proof.
  revert s cur. induction lines as [| line lines IH]; intros s cur; simpl.
  - by intros [= <-].
  - unfold bind. destruct (persist_line config line s) as [s1 [[] | e]] eqn:E;
      [| discriminate].
    intros Hl Hreg. apply (IH _ _ Hl).
    clear IH Hl. apply persist_line_inv in E as [(e & ? & _) | (s2 & Hh & Hc)]; [done |].
    apply (check_threshold_registered _ _ _ _ _ Hc).
    by apply (handled_registered _ _ _ _ _ Hh).
Qed.

(** X8: when lines have been read without error, the registries hold for
    every stream the schema and the key properties of its most recent
    SCHEMA message, and a validator built from that schema; a stream
    never declared has no entry.  Streams are told apart as the dicts
    tell their keys apart: names that are equal as Python values, such
    as 1 and 1.0, are one stream, and the later declaration replaces
    the earlier one whichever way it was written. *)
Theorem registry_holds_last_declaration config lines s k :
  after_lines config lines = (s, Ok tt) ->
  schemas s !! k = fst <$> last_declaration k lines /\
  key_properties s !! k = snd <$> last_declaration k lines /\
  match last_declaration k lines with
  | Some (sch, _) =>
      exists v, validators s !! k = Some v /\ Draft4Validator sch = Ok v
  | None => validators s !! k = None
  end.
Proof.
  rewrite after_lines_eq. intros H.
  apply (loop_registered _ _ _ _ k None H). by repeat split.
Qed.

(** *** A negative threshold *)

(** X13: with a negative threshold every input that is not empty fails
    at its first line and nothing is sent: when the line itself is
    handled (a SCHEMA or STATE message; a record cannot be, no stream
    being declared yet) the check runs the flush with [schema] unbound. *)
Theorem negative_threshold_rejects_input config line rest :
  max_batch_size config < 0 ->
  exists s e,
    persist_lines config (line :: rest) boot = (s, Raise e) /\
    requests s = [] /\
    (forall s1, dispatch line started = (s1, Ok tt) ->
       e = UnboundLocalError "schema").
Proof.
  intros Hneg.
  assert (H : exists s e, persist_line config line started = (s, Raise e) /\
            requests s = [] /\
            (forall s1, dispatch line started = (s1, Ok tt) ->
               e = UnboundLocalError "schema")).
  { destruct (persist_line config line started) as [s r] eqn:E.
    apply persist_line_inv in E as [(e & -> & Hd) | (s1 & Hh & Hc)].
    - exists s, e. split; [done |].
      split; [by destruct (dispatch_raise _ _ _ _ Hd) as (_ & _ & _ & _ & -> & _) |].
      intros s1 Hs1. rewrite Hs1 in Hd. discriminate.
    - assert (Hs1 : batch_size s1 = 0 /\ schema s1 = None /\ requests s1 = []).
      { destruct Hh as [o stream k sch v rec _ _ _ _ Hsch | |]; [| done | done].
        simpl in Hsch. by rewrite lookup_empty in Hsch. }
      destruct Hs1 as (Hb & Hsch & Hreq).
      rewrite check_threshold_above, Hsch in Hc by lia. simplify_eq.
      exists (announced s1), (UnboundLocalError "schema"). by repeat split. }
  destruct H as (s & e & Hline & Hreq & He). exists s, e. split; [| done].
  apply (run_aborts config [] line rest started); [reflexivity | exact Hline].
Qed.

(** *** What is printed *)

Lemma batch_ordinals_app out1 out2 :
  batch_ordinals (out1 ++ out2) = batch_ordinals out1 ++ batch_ordinals out2.
Proof.
  induction out1 as [| o out1 IH]; [done |]. destruct o; simpl; by rewrite ?IH.
Qed.

Lemma response_bodies_app out1 out2 :
  response_bodies (out1 ++ out2) = response_bodies out1 ++ response_bodies out2.
Proof.
  induction out1 as [| o out1 IH]; [done |]. destruct o; simpl; by rewrite ?IH.
Qed.

Lemma Announced_persist_line config line s s' :
  Announced s -> persist_line config line s = (s', Ok tt) -> Announced s'.
Proof.
  intros (Ho & Hn & Hr) H.
  apply persist_line_inv in H as [(e & ? & _) | (s1 & Hh & Hc)]; [done |].
  assert (H1 : stdout s1 = stdout s /\ requests s1 = requests s /\
               number_of_the_current_batch s1 = number_of_the_current_batch s)
    by by destruct Hh.
  destruct H1 as (Hout & Hreq & Hnum).
  destruct (Z.le_gt_cases (batch_size s1) (max_batch_size config)) as [Hle | Hgt].
  - rewrite check_threshold_below in Hc by done. simplify_eq.
    unfold Announced. by rewrite Hout, Hreq, Hnum.
  - rewrite check_threshold_above in Hc by done.
    destruct (schema s1); [| discriminate].
    destruct (getresponse _ _); [| discriminate]. simplify_eq.
    unfold Announced. simpl.
    rewrite !batch_ordinals_app, !response_bodies_app, !length_app, Hout, Hreq, Hnum, Ho, Hn.
    simpl. rewrite Hr.
    replace (length (requests s) + 1)%nat with (S (length (requests s))) by lia.
    rewrite seq_S, map_app. simpl. rewrite app_nil_r.
    split; [done |]. split; lia.
Qed.

(** X11: a run that ends without error has announced its threshold
    flushes as batches 1, 2, ..., k in this order, has read the clock
    k + 1 times, has sent k requests or, with the flush at the end of
    the input (which is not announced), k + 1, and has printed one
    response body for each request. *)
Theorem batches_are_numbered config lines s st :
  persist_lines config lines boot = (s, Ok st) ->
  exists k,
    batch_ordinals (stdout s) = map Z.of_nat (seq 1 k) /\
    clock_reads s = S k /\
    (length (requests s) = k \/ length (requests s) = S k) /\
    length (response_bodies (stdout s)) = length (requests s).
Proof.
  rewrite persist_lines_eq.
  destruct (after_lines config lines) as [s1 [[] | e]] eqn:E; [| discriminate].
  pose proof (inv_clock _ (Inv_after_lines _ _ _ E)) as Hclk.
  rewrite after_lines_eq in E.
  apply (loop_ok_ind Announced config
           (fun a l b => Announced_persist_line config l a b)) in E;
    [| by repeat split].
  destruct E as (Ho & Hn & Hr).
  rewrite epilogue_eq, submit_eq. intros Hrun. exists (length (requests s1)).
  destruct (messages s1) as [| op ops].
  - simplify_eq. repeat split; auto.
  - destruct (schema s1); [| discriminate].
    destruct (getresponse _ _); [| discriminate]. simplify_eq. simpl.
    rewrite batch_ordinals_app, response_bodies_app, !length_app. simpl.
    rewrite app_nil_r. repeat split; [done | done | right; lia | lia].
Qed.

(** *** The size of the batches *)

Lemma full_batches_persist_line config line s s' :
  0 <= max_batch_size config ->
  Inv s /\ batch_size s <= max_batch_size config /\
    List.Forall (full_batch config) (requests s) ->
  persist_line config line s = (s', Ok tt) ->
  Inv s' /\ batch_size s' <= max_batch_size config /\
    List.Forall (full_batch config) (requests s').
Proof.
  intros Hmax (HI & Hb & Hfull) H.
  split; [by eapply Inv_persist_line |].
  split; [by eapply bounded_persist_line |].
  apply persist_line_inv in H as [(e & ? & _) | (s1 & Hh & Hc)]; [done |].
  pose proof (weak_count _ (inv_weak _ (Inv_handled _ _ _ HI Hh))) as Hcount.
  apply handled_batch_size in Hh as [Hstep Hreq].
  destruct (Z.le_gt_cases (batch_size s1) (max_batch_size config)) as [Hle | Hgt].
  - rewrite check_threshold_below in Hc by done. simplify_eq. by rewrite Hreq.
  - rewrite check_threshold_above in Hc by done.
    destruct (schema s1) as [sch |]; [| discriminate].
    destruct (getresponse _ _); [| discriminate]. simplify_eq. simpl.
    apply List.Forall_app. split; [by rewrite Hreq |].
    constructor; [| constructor]. unfold full_batch. simpl. lia.
Qed.

(** X10: with a threshold that is not negative, every request except
    possibly the last holds [batch_size + 1] operations; the last one,
    when it is sent at the end of the input, holds between 1 and
    [batch_size]. *)
Theorem batch_sizes config lines s st :
  0 <= max_batch_size config ->
  persist_lines config lines boot = (s, Ok st) ->
  exists full last,
    requests s = full ++ last /\
    List.Forall (full_batch config) full /\
    (last = [] \/
     exists req, last = [req] /\
       1 <= Z.of_nat (length (payload_messages (req_body req)))
         <= max_batch_size config).
Proof.
  intros Hmax. rewrite persist_lines_eq.
  destruct (after_lines config lines) as [s1 [[] | e]] eqn:E; [| discriminate].
  rewrite after_lines_eq in E.
  apply (loop_ok_ind _ config
           (fun a l b => full_batches_persist_line config l a b Hmax)) in E;
    [| split; [apply Inv_started | split; [done | constructor]]].
  destruct E as (HI & Hb & Hfull).
  pose proof (weak_count _ (inv_weak _ HI)) as Hcount.
  rewrite epilogue_eq, submit_eq.
  destruct (messages s1) as [| op ops] eqn:Em.
  - intros [= <- <-]. exists (requests s1), []. rewrite app_nil_r. auto.
  - destruct (schema s1) as [sch |]; [| discriminate].
    destruct (getresponse _ _); [| discriminate]. intros [= <- <-].
    exists (requests s1), [request_of config sch (messages s1)].
    simpl. rewrite Em. split; [done |]. split; [done |]. right.
    eexists. split; [reflexivity |]. simpl in *. lia.
Qed.

(** *** Where the requests go *)

Lemma check_threshold_requests config s s' r :
  check_threshold config s = (s', r) ->
  requests s' = requests s \/
  exists sch, requests s' = requests s ++ [request_of config sch (messages s)].
Proof.
  destruct (Z.le_gt_cases (batch_size s) (max_batch_size config)) as [Hle | Hgt].
  - rewrite check_threshold_below by done. intros [= <- <-]. by left.
  - rewrite check_threshold_above by done.
    destruct (schema s) as [sch |]; [| intros [= <- <-]; by left].
    destruct (getresponse _ _); intros [= <- <-]; right; by exists sch.
Qed.

Lemma addressed_persist_line config line s s' r :
  List.Forall (addressed config) (requests s) ->
  persist_line config line s = (s', r) ->
  List.Forall (addressed config) (requests s').
Proof.
  intros Ha H. apply persist_line_inv in H as [(e & -> & Hd) | (s1 & Hh & Hc)].
  - by destruct (dispatch_raise _ _ _ _ Hd) as (_ & _ & _ & _ & -> & _).
  - apply handled_batch_size in Hh as [_ Hreq].
    apply check_threshold_requests in Hc as [-> | [sch ->]]; rewrite Hreq; [done |].
    apply List.Forall_app. split; [done |]. constructor; [| constructor].
    by eexists _, _.
Qed.

Lemma addressed_loop config lines s s' r :
  List.Forall (addressed config) (requests s) ->
  loop config lines s = (s', r) ->
  List.Forall (addressed config) (requests s').
Proof.
  revert s. induction lines as [| line lines IH]; intros s Ha; simpl.
  - by intros [= <- <-].
  - unfold bind. destruct (persist_line config line s) as [s1 [[] | e]] eqn:E.
    + apply IH. by eapply addressed_persist_line.
    + intros [= <- <-]. by eapply addressed_persist_line.
Qed.

(** X12: every request of a run, also of one that aborts, goes to the
    configured host and path with the configured bearer token and table
    name, each defaulting to the empty string. *)
Theorem requests_are_addressed config lines s r req :
  persist_lines config lines boot = (s, r) ->
  In req (requests s) ->
  req_host req = config_get (cfg_region_url config) "" /\
  req_path req = config_get (cfg_batch_api_path config) "" /\
  req_authorization req = "Bearer " +:+ config_get (cfg_token config) "" /\
  payload_table_name (req_body req) = config_get (cfg_table_name config) "".
Proof.
  intros Hrun Hin.
  assert (Hall : List.Forall (addressed config) (requests s)).
  { rewrite persist_lines_eq, after_lines_eq in Hrun.
    destruct (loop config lines started) as [s1 [[] | e]] eqn:E.
    - apply addressed_loop in E; [| constructor].
      rewrite epilogue_eq, submit_eq in Hrun.
      destruct (messages s1); [by simplify_eq |].
      destruct (schema s1) as [sch |]; [| by simplify_eq].
      destruct (getresponse _ _); simplify_eq; simpl;
        (apply List.Forall_app; split; [done |]; constructor; [| constructor]);
        by eexists _, _.
    - simplify_eq. apply addressed_loop in E; [done | constructor]. }
  rewrite List.Forall_forall in Hall. by destruct (Hall req Hin) as (sch & ops & ->).
Qed.

(** *** The schema a batch is sent with *)

(** X9: when the input ends with a record, the last request holds the
    operations that were pending and this record, and its schema is the
    one registered for this record's stream, whatever streams the other
    operations belong to. *)
Theorem last_record_decides_schema config lines line s0 s st o :
  after_lines config lines = (s0, Ok tt) ->
  loads line = Some o ->
  py_getitem o "type" = Ok (JString "RECORD") ->
  persist_lines config (lines ++ [line]) boot = (s, Ok st) ->
  exists stream k sch rec,
    py_getitem o "stream" = Ok stream /\ py_hash stream = Ok k /\
    py_getitem o "record" = Ok rec /\
    schemas s0 !! k = Some sch /\
    requests s = requests s0 ++
      [request_of config sch (messages s0 ++ [operation_for rec s0])].
Proof.
  intros Hpre Hl Ht. rewrite persist_lines_eq, after_lines_app, Hpre. simpl.
  unfold bind, ret.
  destruct (persist_line config line s0) as [s2 [[] | e]] eqn:E; [| discriminate].
  apply persist_line_inv in E as [(e & ? & _) | (s1 & Hh & Hc)]; [done |].
  destruct (handled_as_record _ _ _ _ Hh Hl Ht)
    as (stream & k & sch & v & rec & Hs & Hk & Hsch & Hv & Hrec & Hval & ->).
  intros Hrun. exists stream, k, sch, rec. repeat (split; [done |]).
  rewrite epilogue_eq, submit_eq in Hrun.
  destruct (Z.le_gt_cases (batch_size (accept sch rec s0)) (max_batch_size config))
    as [Hle | Hgt].
  - rewrite check_threshold_below in Hc by done. simplify_eq. simpl in Hrun.
    destruct (messages s0 ++ _) eqn:Em in Hrun; [by destruct (messages s0) |].
    rewrite <- Em in Hrun. clear Em.
    destruct (getresponse _ _); simplify_eq. done.
  - rewrite check_threshold_above in Hc by done. simpl in Hc.
    destruct (getresponse _ _); simplify_eq. simpl in Hrun. by simplify_eq.
Qed.

End Theory.

(** ** Properties of [flatten] *)

Lemma flatten_entry_object sep key d :
  flatten_entry sep key (JObject d) = flatten d key sep.
Proof.
  unfold flatten. simpl. f_equal.
  induction d as [| [k x] d IH]; simpl; [done |]. by rewrite IH.
Qed.

(** *** [dict(items)] *)

Lemma set_item_keys_in {A} k (v : A) d k' :
  In k' (keys (set_item k v d)) <-> k' = k \/ In k' (keys d).
Proof.
  induction d as [| [k0 v0] d IH]; simpl.
  - intuition.
  - destruct (String.eqb_spec k k0) as [-> | Hne]; simpl; [intuition |].
    rewrite IH. intuition.
Qed.

Lemma set_item_NoDup {A} k (v : A) d :
  List.NoDup (keys d) -> List.NoDup (keys (set_item k v d)).
Proof.
  induction d as [| [k0 v0] d IH]; simpl; intros Hd.
  - constructor; [intros [] | constructor].
  - apply List.NoDup_cons_iff in Hd as [Hk0 Hd].
    destruct (String.eqb_spec k k0) as [-> | Hne]; simpl.
    + by constructor.
    + constructor; [| by apply IH].
      rewrite set_item_keys_in. intros [-> | Hin]; done.
Qed.

Lemma set_item_In {A} k (v : A) d k' v' :
  In (k', v') (set_item k v d) -> (k', v') = (k, v) \/ In (k', v') d.
Proof.
  induction d as [| [k0 v0] d IH]; simpl.
  - intuition.
  - destruct (String.eqb_spec k k0) as [-> | Hne]; simpl; [intuition |].
    intros [H | H]; [auto |]. destruct (IH H); auto.
Qed.

Lemma set_item_fresh {A} k (v : A) d :
  ~ In k (keys d) -> set_item k v d = d ++ [(k, v)].
Proof.
  induction d as [| [k0 v0] d IH]; simpl; intros Hk; [done |].
  destruct (String.eqb_spec k k0) as [-> | Hne]; [tauto |].
  rewrite IH; [done | tauto].
Qed.

Lemma fold_set_item_In {A} (items acc : list (string * A)) kv :
  In kv (fold_left (fun d kv => set_item (fst kv) (snd kv) d) items acc) ->
  In kv items \/ In kv acc.
Proof.
  revert acc. induction items as [| [k v] items IH]; simpl; intros acc; [auto |].
  intros H. destruct (IH _ H) as [H1 | H1]; [auto |].
  destruct kv as [k' v']. apply set_item_In in H1 as [-> | H1]; auto.
Qed.

Lemma dict_of_items_In {A} (items : list (string * A)) kv :
  In kv (dict_of_items items) -> In kv items.
Proof. intros H. by destruct (fold_set_item_In _ _ _ H). Qed.

Lemma fold_set_item_NoDup {A} (items acc : list (string * A)) :
  List.NoDup (keys acc) ->
  List.NoDup (keys (fold_left (fun d kv => set_item (fst kv) (snd kv) d) items acc)).
Proof.
  revert acc. induction items as [| [k v] items IH]; simpl; intros acc Hacc; [done |].
  by apply IH, set_item_NoDup.
Qed.

Lemma dict_of_items_NoDup {A} (items : list (string * A)) :
  List.NoDup (keys (dict_of_items items)).
Proof. apply fold_set_item_NoDup. constructor. Qed.

Lemma fold_set_item_unique {A} (items acc : list (string * A)) :
  List.NoDup (keys (acc ++ items)) ->
  fold_left (fun d kv => set_item (fst kv) (snd kv) d) items acc = acc ++ items.
Proof.
  revert acc. induction items as [| [k v] items IH]; simpl; intros acc Hnd.
  - by rewrite app_nil_r.
  - assert (Hk : ~ In k (keys acc)).
    { unfold keys in *. rewrite map_app in Hnd. simpl in Hnd.
      apply List.NoDup_remove_2 in Hnd. rewrite in_app_iff in Hnd. tauto. }
    rewrite set_item_fresh by done. rewrite IH; rewrite <- app_assoc; done.
Qed.

(** A list of items with distinct keys is the dict it makes. *)
Lemma dict_of_items_unique {A} (items : list (string * A)) :
  List.NoDup (keys items) -> dict_of_items items = items.
Proof. intros H. by apply (fold_set_item_unique items []). Qed.

(** *** Induction on JSON values *)

Lemma json_nested_ind (P : json -> Prop) :
  P JNull ->
  (forall b, P (JBool b)) ->
  (forall n, P (JInt n)) ->
  (forall lit, P (JFloat lit)) ->
  (forall s, P (JString s)) ->
  (forall l, List.Forall P l -> P (JArray l)) ->
  (forall d, List.Forall (fun kv => P (snd kv)) d -> P (JObject d)) ->
  forall v, P v.
Proof.
  intros Hnull Hbool Hint Hfloat Hstr Harr Hobj.
  fix IH 1. intros v. destruct v as [| b | n | lit | s | l | d].
  - exact Hnull.
  - apply Hbool.
  - apply Hint.
  - apply Hfloat.
  - apply Hstr.
  - apply Harr. induction l as [| x l IHl]; constructor; [apply IH | exact IHl].
  - apply Hobj. induction d as [| [k x] d IHd]; constructor; [apply IH | exact IHd].
Qed.

Lemma flatten_entry_flat sep v :
  forall key k x, In (k, x) (flatten_entry sep key v) -> is_flat x = true.
Proof.
  induction v as [| b | n | lit | s | l _ | d IH] using json_nested_ind;
    intros key k x; simpl; try (intros [[= <- <-] | []]; done).
  intros Hin%dict_of_items_In. revert Hin.
  induction IH as [| [k0 x0] d Hx0 Hd IHd]; simpl; [done |].
  rewrite in_app_iff. intros [Hin | Hin]; [by eapply Hx0 | by apply IHd].
Qed.

(** X1: no value of a flattened dict is a dict or a list: nested dicts
    are replaced by their prefixed entries, lists by their [str]. *)
Theorem flatten_values_are_flat d parent_key sep k x :
  In (k, x) (flatten d parent_key sep) -> is_flat x = true.
Proof.
  rewrite <- flatten_entry_object. apply flatten_entry_flat.
Qed.

Lemma flatten_items_scalars sep d :
  forallb (fun kv => is_scalar (snd kv)) d = true ->
  flatten_items sep "" d = map (fun kv => (fst kv, Kept (snd kv))) d.
Proof.
  induction d as [| [k x] d IH]; simpl; [done |].
  intros [Hx Hd]%andb_prop. rewrite (IH Hd). by destruct x.
Qed.

(** X2: a dict whose values are neither dicts nor lists is returned as it
    is (same keys, same values, same order) by [flatten(d)]. *)
Theorem flatten_flat_dict d sep :
  List.NoDup (keys d) ->
  forallb (fun kv => is_scalar (snd kv)) d = true ->
  flatten d "" sep = map (fun kv => (fst kv, Kept (snd kv))) d.
Proof.
  intros Hnd Hflat. unfold flatten. rewrite (flatten_items_scalars _ _ Hflat).
  apply dict_of_items_unique. unfold keys. by rewrite map_map.
Qed.

Lemma append_assoc (a b c : string) : (a +:+ b) +:+ c = a +:+ (b +:+ c).
Proof.
  induction a as [| x a IH]; [done |].
  change (String x ((a +:+ b) +:+ c) = String x (a +:+ b +:+ c)). by f_equal.
Qed.

Lemma new_key_nonempty sep parent k :
  parent <> "" -> new_key sep parent k = (parent +:+ sep) +:+ k /\
                  new_key sep parent k <> "".
Proof. destruct parent; [done |]. intros _. by split. Qed.

Lemma flatten_entry_prefix sep v :
  forall key k x, key <> "" -> In (k, x) (flatten_entry sep key v) ->
    exists rest, k = key +:+ rest.
Proof.
  assert (Hself : forall key : string, key = key +:+ "").
  { induction key as [| c key IH]; [done |].
    change (String c key = String c (key +:+ "")). by f_equal. }
  induction v as [| b | n | lit | s | l _ | d IH] using json_nested_ind;
    intros key k x Hkey; simpl;
    try (intros [[= <- <-] | []]; exists ""; apply Hself).
  intros Hin%dict_of_items_In. revert Hin.
  induction IH as [| [k0 x0] d Hx0 Hd IHd]; simpl; [done |].
  rewrite in_app_iff. intros [Hin | Hin]; [| by apply IHd].
  destruct (new_key_nonempty sep key k0 Hkey) as [Hnew Hne].
  destruct (Hx0 _ _ _ Hne Hin) as [rest ->]. rewrite Hnew.
  exists (sep +:+ k0 +:+ rest). by rewrite !append_assoc.
Qed.

(** X3: with a parent key that is not empty, every key of the result
    begins with the parent key followed by the separator. *)
Theorem flatten_keys_prefixed d parent_key sep k x :
  parent_key <> "" ->
  In (k, x) (flatten d parent_key sep) ->
  exists rest, k = parent_key +:+ sep +:+ rest.
Proof.
  intros Hp Hin%dict_of_items_In. revert Hin.
  induction d as [| [k0 x0] d IH]; simpl; [done |].
  rewrite in_app_iff. intros [Hin | Hin]; [| by apply IH].
  destruct (new_key_nonempty sep parent_key k0 Hp) as [Hnew Hne].
  destruct (flatten_entry_prefix _ _ _ _ _ Hne Hin) as [rest ->]. rewrite Hnew.
  exists (k0 +:+ rest). by rewrite !append_assoc.
Qed.

(** X4: the test [if parent_key] takes the empty key for no key: a dict
    nested under the key [''] is flattened as if it were the dict
    itself, its keys get no prefix. *)
Theorem flatten_empty_key d sep :
  flatten [("", JObject d)] "" sep = flatten d "" sep.
Proof.
  unfold flatten at 1.
  change (flatten_items sep "" [("", JObject d)])
    with (flatten_entry sep "" (JObject d) ++ []).
  rewrite app_nil_r, flatten_entry_object.
  apply dict_of_items_unique, dict_of_items_NoDup.
Qed.

(** ** The decoder and the properties at concrete inputs *)

Example loads_record :
  loads (q "{'type': 'RECORD', 'stream': 'users', 'record': {'id': 1}}")
  = Some (JObject [("type", JString "RECORD"); ("stream", JString "users");
                   ("record", JObject [("id", JInt 1)])]).
Proof. reflexivity. Qed.

Example loads_nested :
  loads (q " [1, -2.5e3, true, null, {'a': [], 'a': 'x\u00e9\n'}] ")
  = Some (JArray [JInt 1; JFloat "-2.5e3"; JBool true; JNull;
                  JObject [("a", JString (string_of_list_ascii
                     [byte 120; byte 195; byte 169; byte 10]))]]).
Proof. reflexivity. Qed.

Example loads_infinity :
  loads "[-Infinity, NaN, -0, 12345678901234567890]"
  = Some (JArray [JFloat "-Infinity"; JFloat "NaN"; JInt 0;
                  JInt 12345678901234567890]).
Proof. reflexivity. Qed.

Example loads_surrogate_pair :
  loads (q "'\ud83d\ude00'")
  = Some (JString (string_of_list_ascii
                     [byte 240; byte 159; byte 152; byte 128])).
Proof. reflexivity. Qed.

Example loads_rejects :
  map loads ["01"; "1."; "[1,]"; "{"; "tru"; "- 1"; "[1 2]"; "1 2"; "nulls"]
  = [None; None; None; None; None; None; None; None; None].
Proof. reflexivity. Qed.

(** Numbers that are equal are one dict key, however they are written;
    the nearest double decides, also where it overflows or underflows. *)
Example float_keys :
  map py_hash [JFloat "1.0"; JFloat "1e0"; JFloat "100e-2"; JFloat "-0.0";
               JFloat "2.5"; JFloat "-25E-1"; JFloat "0.1"; JFloat "1e23";
               JFloat "9007199254740993.0"; JFloat "1e400";
               JFloat "-Infinity"; JFloat "4.9e-324"; JFloat "2.4e-324";
               JFloat "NaN"; JBool true; JInt 1; JString "1"]
  = [Ok (KInt 1); Ok (KInt 1); Ok (KInt 1); Ok (KInt 0);
     Ok (KFloat 5 (-1)); Ok (KFloat (-5) (-1));
     Ok (KFloat 3602879701896397 (-55)); Ok (KInt 99999999999999991611392);
     Ok (KInt 9007199254740992); Ok (KInf false);
     Ok (KInf true); Ok (KFloat 1 (-1074)); Ok (KInt 0);
     Ok KNaN; Ok (KInt 1); Ok (KInt 1); Ok (KStr "1")].
Proof. vm_compute. reflexivity. Qed.

(** The stream declared under 1 is the stream of the records that name
    it 1e0 or [true]: both are accepted and sent at the end. *)
Example number_stream_is_one_stream :
  let W := frozen_world 100 in
  let lines := [schema_one; record_one_float; record_true] in
  let r := persist_lines (config_of 5) lines boot in
  map declared_stream [schema_one; schema_one_float]
  = [Some (KInt 1); Some (KInt 1)] /\
  snd r = Ok JNull /\ sent (fst r) = [[101; 102]].
Proof. vm_compute. repeat split; reflexivity. Qed.

(** Declared under 1 and again under 1.0, the stream has one entry in
    each registry, that of the second declaration. *)
Example number_stream_redeclared :
  let W := frozen_world 100 in
  let lines := [schema_one; schema_one_float] in
  let s := fst (after_lines (config_of 5) lines) in
  let sch := JObject [("type", JString "object");
                      ("required", JArray [JString "id"])] in
  snd (after_lines (config_of 5) lines) = Ok tt /\
  map_to_list (schemas s) = [(KInt 1, sch)] /\
  map_to_list (key_properties s) = [(KInt 1, JArray [])] /\
  last_declaration (KInt 1) lines = Some (sch, JArray []).
Proof. vm_compute. repeat split; reflexivity. Qed.

(** A record, a checkpoint, another record, another checkpoint: the
    second checkpoint is the one printed. *)
Lemma checkpoint_is_most_recent_state_witness :
  let W := frozen_world 100 in
  let lines := [users_schema; user "1"; bookmark "1"; user "2"; bookmark "2"] in
  snd (main (config_of 5) lines boot) = Ok tt /\
  checkpoint_lines (stdout (fst (main (config_of 5) lines boot)))
  = [JObject [("bookmark", JInt 2)]].
Proof.
  intros W lines. split; [vm_compute; reflexivity |].
  apply (checkpoint_is_most_recent_state (config_of 5) lines
           (fst (main (config_of 5) lines boot))).
  vm_compute; reflexivity.
Defined.

(** Threshold 1, the second record: the check finds two operations and
    sends them. *)
Lemma threshold_check_witness :
  let W := frozen_world 100 in
  let config := config_of 1 in
  let lines := [users_schema; user "1"] in
  let s := fst (after_lines config lines) in
  let s1 := fst (dispatch (user "2") s) in
  let s2 := fst (check_threshold config s1) in
  let r := snd (check_threshold config s1) in
  (0 <= max_batch_size config /\
   after_lines config lines = (s, Ok tt) /\
   dispatch (user "2") s = (s1, Ok tt) /\
   check_threshold config s1 = (s2, r)) /\
  length (messages s1) = 2%nat /\ length (requests s1) = 0%nat /\
  length (requests s2) = 1%nat /\
  (max_batch_size config < Z.of_nat (length (messages s1)) ->
     exists sch,
       requests s2 = requests s1 ++ [request_of config sch (messages s1)] /\
       (r = Ok tt -> messages s2 = [])).
Proof.
  intros W config lines s s1 s2 r.
  assert (H0 : 0 <= max_batch_size config) by (vm_compute; discriminate).
  assert (H1 : after_lines config lines = (s, Ok tt)) by (vm_compute; reflexivity).
  assert (H2 : dispatch (user "2") s = (s1, Ok tt)) by (vm_compute; reflexivity).
  assert (H3 : check_threshold config s1 = (s2, r)) by (vm_compute; reflexivity).
  split; [exact (conj H0 (conj H1 (conj H2 H3))) |].
  split; [vm_compute; reflexivity |]. split; [vm_compute; reflexivity |].
  split; [vm_compute; reflexivity |].
  apply (threshold_check config lines (user "2") s s1 s2 r H0 H1 H2 H3).
Defined.

(** C2 (counterexample): threshold 1, one record pending, a second
    record arrives: when the check runs after the append the accumulator
    holds two operations, more than the threshold. *)
Lemma pending_exceeds_batch_size_at_check :
  let W := frozen_world 100 in
  let config := config_of 1 in
  let s := fst (after_lines config [users_schema; user "1"]) in
  let s1 := fst (dispatch (user "2") s) in
  snd (after_lines config [users_schema; user "1"]) = Ok tt /\
  snd (dispatch (user "2") s) = Ok tt /\
  max_batch_size config = 1 /\
  Z.of_nat (length (messages s1)) = 2 /\
  max_batch_size config < Z.of_nat (length (messages s1)).
Proof. vm_compute. repeat split. Qed.

(** The scenario itself, with the clock at 100. *)
Lemma two_records_one_flush_witness :
  let W := frozen_world 100 in
  let config := config_of 1 in
  let s := fst (main config [users_schema; user "1"; user "2"] boot) in
  (cfg_batch_size config = Some 1 /\
   declared_stream users_schema = Some (KStr "users") /\
   event_of (user "1") = EvRecord /\
   event_of (user "2") = EvRecord /\
   main config [users_schema; user "1"; user "2"] boot = (s, Ok tt)) /\
  (exists req,
     requests s = [req] /\ length (payload_messages (req_body req)) = 2%nat) /\
  checkpoint_lines (stdout s) = [].
Proof.
  intros W config s.
  assert (H0 : cfg_batch_size config = Some 1) by reflexivity.
  assert (H1 : declared_stream users_schema = Some (KStr "users")) by (vm_compute; reflexivity).
  assert (H2 : event_of (user "1") = EvRecord) by (vm_compute; reflexivity).
  assert (H3 : event_of (user "2") = EvRecord) by (vm_compute; reflexivity).
  assert (H4 : main config [users_schema; user "1"; user "2"] boot = (s, Ok tt))
    by (vm_compute; reflexivity).
  split; [exact (conj H0 (conj H1 (conj H2 (conj H3 H4)))) |].
  apply (two_records_one_flush config users_schema (user "1") (user "2")
           (KStr "users") s H0 H1 H2 H3 H4).
Defined.

(** C3 (counterexample): threshold 1, a declaration and two valid
    records: the run sends one request, which carries both operations
    (sequence numbers 101 and 102), not two requests of one operation
    each; no checkpoint is printed. *)
Lemma two_records_are_sent_together :
  let W := frozen_world 100 in
  let r := main (config_of 1) [users_schema; user "1"; user "2"] boot in
  snd r = Ok tt /\
  sent (fst r) = [[101; 102]] /\
  length (requests (fst r)) = 1%nat /\
  checkpoint_lines (stdout (fst r)) = [].
Proof. vm_compute. repeat split. Qed.

(** Five records, threshold 1, ten seconds between two readings of the
    clock. *)
Lemma sequence_numbers_unique_with_clock_gap_witness :
  let W := ticking_world 100 10 in
  let config := config_of 1 in
  let lines := [users_schema; user "1"; user "2"; user "3"; user "4"; user "5"] in
  let s := fst (persist_lines config lines boot) in
  (0 <= max_batch_size config /\ clock_gap config /\
   persist_lines config lines boot = (s, Ok JNull)) /\
  concat (sent s) = [101; 102; 111; 112; 121] /\
  List.NoDup (concat (sent s)).
Proof.
  intros W config lines s.
  assert (H0 : 0 <= max_batch_size config) by (vm_compute; discriminate).
  assert (H1 : clock_gap config).
  { intros n. change (100 + 10 * Z.of_nat n + (1 + 1) <= 100 + 10 * Z.of_nat (S n)). lia. }
  assert (H2 : persist_lines config lines boot = (s, Ok JNull)) by (vm_compute; reflexivity).
  split; [exact (conj H0 (conj H1 H2)) |]. split; [vm_compute; reflexivity |].
  apply (sequence_numbers_unique_with_clock_gap config lines s JNull H0 H1 H2).
Defined.

(** C4 (counterexample): the clock shows the same second at the start
    and after the first flush; the third record, first of the second
    window, gets the number 101 that the first record already has. *)
Lemma same_second_repeats_sequence_numbers :
  let W := frozen_world 100 in
  let r := persist_lines (config_of 1)
             [users_schema; user "1"; user "2"; user "3"] boot in
  snd r = Ok JNull /\
  sent (fst r) = [[101; 102]; [101]] /\
  (List.NoDup (concat (sent (fst r))) -> False).
Proof.
  intros W r.
  assert (E : sent (fst r) = [[101; 102]; [101]]) by (vm_compute; reflexivity).
  split; [vm_compute; reflexivity |]. split; [exact E |].
  rewrite E. simpl. intros H.
  apply List.NoDup_cons_iff in H as [H _]. apply H. right. left. reflexivity.
Qed.

(** A record of [orders] when only [users] was declared. *)
Lemma record_before_schema_aborts_witness :
  let W := frozen_world 100 in
  let config := config_of 5 in
  let lines := [users_schema; user "1"] in
  let s := fst (after_lines config lines) in
  let o := JObject [("type", JString "RECORD"); ("stream", JString "orders");
                    ("record", JObject [("id", JInt 1)])] in
  (after_lines config lines = (s, Ok tt) /\
   loads order = Some o /\
   py_getitem o "type" = Ok (JString "RECORD") /\
   py_getitem o "stream" = Ok (JString "orders") /\
   py_hash (JString "orders") = Ok (KStr "orders") /\
   Forall (fun l => declared_stream l <> Some (KStr "orders")) lines) /\
  persist_lines config (lines ++ order :: [user "2"]) boot
  = (s, Raise (RecordBeforeSchema (JString "orders"))) /\
  length (messages s) = 1%nat /\ requests s = [].
Proof.
  intros W config lines s o.
  assert (H0 : after_lines config lines = (s, Ok tt)) by (vm_compute; reflexivity).
  assert (H1 : loads order = Some o) by (vm_compute; reflexivity).
  assert (H2 : py_getitem o "type" = Ok (JString "RECORD")) by reflexivity.
  assert (H3 : py_getitem o "stream" = Ok (JString "orders")) by reflexivity.
  assert (H4 : py_hash (JString "orders") = Ok (KStr "orders")) by reflexivity.
  assert (H5 : Forall (fun l => declared_stream l <> Some (KStr "orders")) lines).
  { repeat constructor; vm_compute; discriminate. }
  split; [exact (conj H0 (conj H1 (conj H2 (conj H3 (conj H4 H5))))) |].
  split; [| vm_compute; split; reflexivity].
  apply (record_before_schema_aborts config lines order [user "2"] s o
           (JString "orders") (KStr "orders") H0 H1 H2 H3 H4 H5).
Defined.

(** A schema that is a string: the constructor raises. *)
Lemma schema_refused_by_constructor_witness :
  let W := frozen_world 100 in
  let config := config_of 5 in
  let s := fst (after_lines config []) in
  let o := JObject [("type", JString "SCHEMA"); ("stream", JString "users");
                    ("schema", JString "nonsense");
                    ("key_properties", JArray [JString "id"])] in
  (after_lines config [] = (s, Ok tt) /\
   loads string_schema = Some o /\
   py_getitem o "type" = Ok (JString "SCHEMA") /\
   py_getitem o "stream" = Ok (JString "users") /\
   py_getitem o "schema" = Ok (JString "nonsense") /\
   py_hash (JString "users") = Ok (KStr "users") /\
   Draft4Validator (JString "nonsense") = Raise (ValidatorError "AttributeError")) /\
  exists s',
    persist_lines config ([] ++ string_schema :: [user "1"]) boot
    = (s', Raise (ValidatorError "AttributeError")) /\
    schemas s' = <[KStr "users" := JString "nonsense"]> (schemas s) /\
    validators s' = validators s /\
    key_properties s' = key_properties s /\
    messages s' = messages s /\ requests s' = requests s.
Proof.
  intros W config s o.
  assert (H0 : after_lines config [] = (s, Ok tt)) by (vm_compute; reflexivity).
  assert (H1 : loads string_schema = Some o) by (vm_compute; reflexivity).
  assert (H2 : py_getitem o "type" = Ok (JString "SCHEMA")) by reflexivity.
  assert (H3 : py_getitem o "stream" = Ok (JString "users")) by reflexivity.
  assert (H4 : py_getitem o "schema" = Ok (JString "nonsense")) by reflexivity.
  assert (H5 : py_hash (JString "users") = Ok (KStr "users")) by reflexivity.
  assert (H6 : Draft4Validator (JString "nonsense")
               = Raise (ValidatorError "AttributeError")) by reflexivity.
  split; [exact (conj H0 (conj H1 (conj H2 (conj H3 (conj H4 (conj H5 H6)))))) |].
  apply (schema_refused_by_constructor config [] string_schema [user "1"] s o
           (JString "users") (JString "nonsense") (KStr "users")
           (ValidatorError "AttributeError") H0 H1 H2 H3 H4 H5 H6).
Defined.

(** C6 (counterexample): the schema document [{'type': 5}] is not a
    valid Draft 4 schema, yet building the validator from it does not
    fail: the declaration is accepted, the run ends without error, and
    the document is registered as the schema and the validator of the
    stream. *)
Lemma invalid_schema_is_registered :
  let W := frozen_world 100 in
  let r := persist_lines (config_of 5) [bad_schema] boot in
  Draft4.structurally_invalid (JObject [("type", JInt 5)]) = true /\
  snd r = Ok JNull /\
  schemas (fst r) !! KStr "users" = Some (JObject [("type", JInt 5)]) /\
  validators (fst r) !! KStr "users" = Some [("type", JInt 5)].
Proof. vm_compute. repeat split. Qed.

(** A declaration without key_properties as the first line. *)
Lemma key_properties_missing_witness :
  let W := frozen_world 100 in
  let config := config_of 5 in
  let s := fst (after_lines config []) in
  let sch := JObject [("type", JString "object")] in
  let o := JObject [("type", JString "SCHEMA"); ("stream", JString "users");
                    ("schema", sch)] in
  (after_lines config [] = (s, Ok tt) /\
   loads keyless_schema = Some o /\
   py_getitem o "type" = Ok (JString "SCHEMA") /\
   py_getitem o "stream" = Ok (JString "users") /\
   py_getitem o "schema" = Ok sch /\
   py_hash (JString "users") = Ok (KStr "users") /\
   Draft4Validator sch = Ok [("type", JString "object")] /\
   py_in "key_properties" o = Ok false) /\
  exists s',
    persist_lines config ([] ++ keyless_schema :: [user "1"]) boot
    = (s', Raise KeyPropertiesRequired) /\
    key_properties s' = key_properties s /\
    schemas s' = <[KStr "users" := sch]> (schemas s) /\
    validators s' = <[KStr "users" := [("type", JString "object")]]> (validators s).
Proof.
  intros W config s sch o.
  assert (H0 : after_lines config [] = (s, Ok tt)) by (vm_compute; reflexivity).
  assert (H1 : loads keyless_schema = Some o) by (vm_compute; reflexivity).
  assert (H2 : py_getitem o "type" = Ok (JString "SCHEMA")) by reflexivity.
  assert (H3 : py_getitem o "stream" = Ok (JString "users")) by reflexivity.
  assert (H4 : py_getitem o "schema" = Ok sch) by reflexivity.
  assert (H5 : py_hash (JString "users") = Ok (KStr "users")) by reflexivity.
  assert (H6 : Draft4Validator sch = Ok [("type", JString "object")]) by reflexivity.
  assert (H7 : py_in "key_properties" o = Ok false) by reflexivity.
  split; [exact (conj H0 (conj H1 (conj H2 (conj H3 (conj H4 (conj H5 (conj H6 H7))))))) |].
  apply (key_properties_missing config [] keyless_schema [user "1"] s o
           (JString "users") sch (KStr "users") [("type", JString "object")]
           H0 H1 H2 H3 H4 H5 H6 H7).
Defined.

(** C7 (counterexample): no stream is registered before the message;
    when the key_properties error is raised, the stream has a schema
    and a validator. *)
Lemma registry_changed_before_key_properties_error :
  let W := frozen_world 100 in
  let before := fst (after_lines (config_of 5) []) in
  let r := persist_lines (config_of 5) [keyless_schema] boot in
  snd r = Raise KeyPropertiesRequired /\
  schemas before !! KStr "users" = None /\
  validators before !! KStr "users" = None /\
  schemas (fst r) !! KStr "users" = Some (JObject [("type", JString "object")]) /\
  validators (fst r) !! KStr "users" = Some [("type", JString "object")] /\
  key_properties (fst r) !! KStr "users" = None.
Proof. vm_compute. repeat split. Qed.

(** Four records, threshold 2: a window of three, then one of one. *)
Lemma window_sequence_numbers_witness :
  let W := frozen_world 100 in
  let config := config_of 2 in
  let lines := [users_schema; user "1"; user "2"; user "3"; user "4"] in
  let s := fst (persist_lines config lines boot) in
  let r := snd (persist_lines config lines boot) in
  persist_lines config lines boot = (s, r) /\
  sent s = [[101; 102; 103]; [101]] /\
  (forall n op, messages s !! n = Some op ->
     sequence op = timestamp s + Z.of_nat (S n)) /\
  (forall i req n op,
     requests s !! i = Some req ->
     payload_messages (req_body req) !! n = Some op ->
     sequence op = time_time i + Z.of_nat (S n)) /\
  StronglySorted Z.lt (map sequence (messages s)) /\
  (forall req, In req (requests s) ->
     StronglySorted Z.lt (map sequence (payload_messages (req_body req))) /\
     List.NoDup (map sequence (payload_messages (req_body req)))).
Proof.
  intros W config lines s r.
  assert (H : persist_lines config lines boot = (s, r)) by (vm_compute; reflexivity).
  split; [exact H |]. split; [vm_compute; reflexivity |].
  apply (window_sequence_numbers config lines s r H).
Defined.

(** A line made of a space, a tab and a line feed. *)
Lemma blank_line_aborts_witness :
  let W := frozen_world 100 in
  let config := config_of 5 in
  let lines := [users_schema; user "1"] in
  let s := fst (after_lines config lines) in
  let line := string_of_list_ascii [byte 32; byte 9; byte 10] in
  (blank line = true /\ after_lines config lines = (s, Ok tt)) /\
  persist_lines config (lines ++ line :: [user "2"]) boot
  = (s, Raise (JSONDecodeError line)).
Proof.
  intros W config lines s line.
  assert (H0 : blank line = true) by reflexivity.
  assert (H1 : after_lines config lines = (s, Ok tt)) by (vm_compute; reflexivity).
  split; [exact (conj H0 H1) |].
  apply (blank_line_aborts config lines line [user "2"] s H0 H1).
Defined.

(** A record of [users] without its 'record' field. *)
Lemma record_field_missing_witness :
  let W := frozen_world 100 in
  let config := config_of 5 in
  let lines := [users_schema; user "1"] in
  let s := fst (after_lines config lines) in
  let o := JObject [("type", JString "RECORD"); ("stream", JString "users")] in
  let sch := JObject [("type", JString "object");
                      ("required", JArray [JString "id"])] in
  (after_lines config lines = (s, Ok tt) /\
   loads empty_record = Some o /\
   py_getitem o "type" = Ok (JString "RECORD") /\
   py_getitem o "stream" = Ok (JString "users") /\
   py_hash (JString "users") = Ok (KStr "users") /\
   schemas s !! KStr "users" = Some sch /\
   py_in "record" o = Ok false) /\
  exists s',
    persist_lines config (lines ++ empty_record :: [user "2"]) boot
    = (s', Raise (KeyError (JString "record"))) /\
    s' = set_schema (Some sch) s /\
    messages s' = messages s /\ batch_size s' = batch_size s /\
    requests s' = requests s.
Proof.
  intros W config lines s o sch.
  assert (H0 : after_lines config lines = (s, Ok tt)) by (vm_compute; reflexivity).
  assert (H1 : loads empty_record = Some o) by (vm_compute; reflexivity).
  assert (H2 : py_getitem o "type" = Ok (JString "RECORD")) by reflexivity.
  assert (H3 : py_getitem o "stream" = Ok (JString "users")) by reflexivity.
  assert (H4 : py_hash (JString "users") = Ok (KStr "users")) by reflexivity.
  assert (H5 : schemas s !! KStr "users" = Some sch) by (vm_compute; reflexivity).
  assert (H6 : py_in "record" o = Ok false) by reflexivity.
  split; [exact (conj H0 (conj H1 (conj H2 (conj H3 (conj H4 (conj H5 H6)))))) |].
  apply (record_field_missing config lines empty_record [user "2"] s o
           (JString "users") (KStr "users") sch H0 H1 H2 H3 H4 H5 H6).
Defined.

Example flatten_nested :
  flatten [("a", JObject [("b", JInt 1); ("c", JObject [("d", JArray [JInt 2])])]);
           ("e", JNull)] "" "__"
  = [("a__b", Kept (JInt 1)); ("a__c__d", StrOf [JInt 2]); ("e", Kept JNull)].
Proof. reflexivity. Qed.

Example flatten_collision :
  flatten [("a__b", JInt 1); ("a", JObject [("b", JInt 2)])] "" "__"
  = [("a__b", Kept (JInt 2))].
Proof. reflexivity. Qed.

Lemma flatten_flat_dict_witness :
  let d := [("id", JInt 1); ("name", JString "rex"); ("tags", JNull)] in
  (List.NoDup (keys d) /\
   forallb (fun kv => is_scalar (snd kv)) d = true) /\
  flatten d "" "__"
  = [("id", Kept (JInt 1)); ("name", Kept (JString "rex")); ("tags", Kept JNull)].
Proof.
  intros d.
  assert (H0 : List.NoDup (keys d)).
  { repeat constructor; simpl; intuition discriminate. }
  assert (H1 : forallb (fun kv => is_scalar (snd kv)) d = true) by reflexivity.
  split; [exact (conj H0 H1) |]. apply (flatten_flat_dict d "__" H0 H1).
Defined.

Lemma flatten_keys_prefixed_witness :
  let d := [("a", JObject [("b", JInt 1)])] in
  ("rec" <> "" /\ In ("rec__a__b", Kept (JInt 1)) (flatten d "rec" "__")) /\
  exists rest, "rec__a__b" = "rec" +:+ "__" +:+ rest.
Proof.
  intros d.
  assert (H0 : "rec" <> "") by discriminate.
  assert (H1 : In ("rec__a__b", Kept (JInt 1)) (flatten d "rec" "__")) by (left; reflexivity).
  split; [exact (conj H0 H1) |].
  apply (flatten_keys_prefixed d "rec" "__" "rec__a__b" (Kept (JInt 1)) H0 H1).
Defined.

Lemma flatten_values_are_flat_witness :
  let d := [("a", JObject [("b", JArray [JInt 1])])] in
  In ("a__b", StrOf [JInt 1]) (flatten d "" "__") /\
  is_flat (StrOf [JInt 1]) = true.
Proof.
  intros d.
  assert (H : In ("a__b", StrOf [JInt 1]) (flatten d "" "__")) by (left; reflexivity).
  split; [exact H |].
  apply (flatten_values_are_flat d "" "__" "a__b" (StrOf [JInt 1]) H).
Defined.

(** Three records and a checkpoint, threshold 1. *)
Lemma every_record_sent_once_witness :
  let W := frozen_world 100 in
  let config := config_of 1 in
  let lines := [users_schema; user "1"; user "2"; bookmark "2"; user "3"] in
  let s := fst (persist_lines config lines boot) in
  persist_lines config lines boot = (s, Ok JNull) /\
  sent_data s = [JObject [("id", JInt 1)]; JObject [("id", JInt 2)];
                 JObject [("id", JInt 3)]] /\
  sent_data s = omap record_of lines.
Proof.
  intros W config lines s.
  assert (H : persist_lines config lines boot = (s, Ok JNull))
    by (vm_compute; reflexivity).
  split; [exact H |]. split; [vm_compute; reflexivity |].
  apply (every_record_sent_once config lines s JNull H).
Defined.

(** One record below the threshold when the input ends. *)
Lemma end_of_input_flush_witness :
  let W := frozen_world 100 in
  let config := config_of 5 in
  let lines := [users_schema; user "1"] in
  let s := fst (after_lines config lines) in
  let s' := fst (persist_lines config lines boot) in
  let r := snd (persist_lines config lines boot) in
  (after_lines config lines = (s, Ok tt) /\
   persist_lines config lines boot = (s', r)) /\
  length (messages s) = 1%nat /\ length (requests s') = 1%nat /\
  (messages s <> [] ->
     exists sch,
       schema s = Some sch /\
       requests s' = requests s ++ [request_of config sch (messages s)] /\
       (forall body,
          getresponse (length (requests s)) (request_of config sch (messages s))
          = Ok body -> r = Ok (state s))).
Proof.
  intros W config lines s s' r.
  assert (H0 : after_lines config lines = (s, Ok tt)) by (vm_compute; reflexivity).
  assert (H1 : persist_lines config lines boot = (s', r)) by (vm_compute; reflexivity).
  split; [exact (conj H0 H1) |].
  split; [vm_compute; reflexivity |]. split; [vm_compute; reflexivity |].
  apply (end_of_input_flush config lines s s' r H0 H1).
Defined.

(** A record that lacks the required [id]. *)
Lemma invalid_record_aborts_witness :
  let W := frozen_world 100 in
  let config := config_of 5 in
  let lines := [users_schema; user "1"] in
  let s := fst (after_lines config lines) in
  let rec := JObject [("name", JString "rex")] in
  let o := JObject [("type", JString "RECORD"); ("stream", JString "users");
                    ("record", rec)] in
  let sch := JObject [("type", JString "object");
                      ("required", JArray [JString "id"])] in
  let v := [("type", JString "object"); ("required", JArray [JString "id"])] in
  (after_lines config lines = (s, Ok tt) /\
   loads nameless_user = Some o /\
   py_getitem o "type" = Ok (JString "RECORD") /\
   py_getitem o "stream" = Ok (JString "users") /\
   py_hash (JString "users") = Ok (KStr "users") /\
   schemas s !! KStr "users" = Some sch /\
   validators s !! KStr "users" = Some v /\
   py_getitem o "record" = Ok rec /\
   validate v rec = Raise (ValidatorError "ValidationError")) /\
  exists s',
    persist_lines config (lines ++ nameless_user :: [user "2"]) boot
    = (s', Raise (ValidatorError "ValidationError")) /\
    messages s' = messages s /\ batch_size s' = batch_size s /\
    requests s' = requests s /\ state s' = state s.
Proof.
  intros W config lines s rec o sch v.
  assert (H0 : after_lines config lines = (s, Ok tt)) by (vm_compute; reflexivity).
  assert (H1 : loads nameless_user = Some o) by (vm_compute; reflexivity).
  assert (H2 : py_getitem o "type" = Ok (JString "RECORD")) by reflexivity.
  assert (H3 : py_getitem o "stream" = Ok (JString "users")) by reflexivity.
  assert (H4 : py_hash (JString "users") = Ok (KStr "users")) by reflexivity.
  assert (H5 : schemas s !! KStr "users" = Some sch) by (vm_compute; reflexivity).
  assert (H6 : validators s !! KStr "users" = Some v) by (vm_compute; reflexivity).
  assert (H7 : py_getitem o "record" = Ok rec) by reflexivity.
  assert (H8 : validate v rec = Raise (ValidatorError "ValidationError"))
    by reflexivity.
  split; [exact (conj H0 (conj H1 (conj H2 (conj H3 (conj H4 (conj H5
           (conj H6 (conj H7 H8)))))))) |].
  apply (invalid_record_aborts config lines nameless_user [user "2"] s o
           (JString "users") (KStr "users") sch v rec
           (ValidatorError "ValidationError") H0 H1 H2 H3 H4 H5 H6 H7 H8).
Defined.

(** An object without 'type'. *)
Lemma line_without_type_aborts_witness :
  let W := frozen_world 100 in
  let config := config_of 5 in
  let s := fst (after_lines config [users_schema]) in
  let d := [("stream", JString "users")] in
  (after_lines config [users_schema] = (s, Ok tt) /\
   loads typeless = Some (JObject d) /\ dict_get "type" d = None) /\
  persist_lines config ([users_schema] ++ typeless :: [user "1"]) boot
  = (s, Raise (MissingRequiredKey "type" typeless)).
Proof.
  intros W config s d.
  assert (H0 : after_lines config [users_schema] = (s, Ok tt))
    by (vm_compute; reflexivity).
  assert (H1 : loads typeless = Some (JObject d)) by (vm_compute; reflexivity).
  assert (H2 : dict_get "type" d = None) by reflexivity.
  split; [exact (conj H0 (conj H1 H2)) |].
  apply (line_without_type_aborts config [users_schema] typeless [user "1"] s d
           H0 H1 H2).
Defined.

(** A line that holds the number 5. *)
Lemma line_not_an_object_aborts_witness :
  let W := frozen_world 100 in
  let config := config_of 5 in
  let s := fst (after_lines config [users_schema]) in
  (after_lines config [users_schema] = (s, Ok tt) /\
   loads "5" = Some (JInt 5) /\ (forall d, JInt 5 <> JObject d)) /\
  exists e,
    persist_lines config ([users_schema] ++ "5" :: [user "1"]) boot
    = (s, Raise e) /\
    (e = MissingRequiredKey "type" "5" \/ exists what, e = TypeError what).
Proof.
  intros W config s.
  assert (H0 : after_lines config [users_schema] = (s, Ok tt))
    by (vm_compute; reflexivity).
  assert (H1 : loads "5" = Some (JInt 5)) by reflexivity.
  assert (H2 : forall d, JInt 5 <> JObject d) by discriminate.
  split; [exact (conj H0 (conj H1 H2)) |].
  apply (line_not_an_object_aborts config [users_schema] "5" [user "1"] s
           (JInt 5) H0 H1 H2).
Defined.

(** A message type of the protocol that the function does not know. *)
Lemma unknown_type_aborts_witness :
  let W := frozen_world 100 in
  let config := config_of 5 in
  let s := fst (after_lines config [users_schema]) in
  let t := JString "ACTIVATE_VERSION" in
  let o := JObject [("type", t); ("stream", JString "users");
                    ("version", JInt 1)] in
  (after_lines config [users_schema] = (s, Ok tt) /\
   loads activate_version = Some o /\
   py_getitem o "type" = Ok t /\
   t <> JString "RECORD" /\ t <> JString "STATE" /\ t <> JString "SCHEMA") /\
  persist_lines config ([users_schema] ++ activate_version :: [user "1"]) boot
  = (s, Raise (UnknownMessageType t o)).
Proof.
  intros W config s t o.
  assert (H0 : after_lines config [users_schema] = (s, Ok tt))
    by (vm_compute; reflexivity).
  assert (H1 : loads activate_version = Some o) by (vm_compute; reflexivity).
  assert (H2 : py_getitem o "type" = Ok t) by reflexivity.
  assert (H3 : t <> JString "RECORD") by discriminate.
  assert (H4 : t <> JString "STATE") by discriminate.
  assert (H5 : t <> JString "SCHEMA") by discriminate.
  split; [exact (conj H0 (conj H1 (conj H2 (conj H3 (conj H4 H5))))) |].
  apply (unknown_type_aborts config [users_schema] activate_version [user "1"]
           s o t H0 H1 H2 H3 H4 H5).
Defined.

(** A record without 'stream'. *)
Lemma stream_missing_aborts_witness :
  let W := frozen_world 100 in
  let config := config_of 5 in
  let s := fst (after_lines config [users_schema]) in
  let t := JString "RECORD" in
  let o := JObject [("type", t); ("record", JObject [("id", JInt 1)])] in
  (after_lines config [users_schema] = (s, Ok tt) /\
   loads streamless = Some o /\
   py_getitem o "type" = Ok t /\
   (t = JString "RECORD" \/ t = JString "SCHEMA") /\
   py_in "stream" o = Ok false) /\
  persist_lines config ([users_schema] ++ streamless :: [user "1"]) boot
  = (s, Raise (MissingRequiredKey "stream" streamless)).
Proof.
  intros W config s t o.
  assert (H0 : after_lines config [users_schema] = (s, Ok tt))
    by (vm_compute; reflexivity).
  assert (H1 : loads streamless = Some o) by (vm_compute; reflexivity).
  assert (H2 : py_getitem o "type" = Ok t) by reflexivity.
  assert (H3 : t = JString "RECORD" \/ t = JString "SCHEMA") by (left; reflexivity).
  assert (H4 : py_in "stream" o = Ok false) by reflexivity.
  split; [exact (conj H0 (conj H1 (conj H2 (conj H3 H4)))) |].
  apply (stream_missing_aborts config [users_schema] streamless [user "1"]
           s o t H0 H1 H2 H3 H4).
Defined.

(** A STATE message without 'value'. *)
Lemma state_value_missing_witness :
  let W := frozen_world 100 in
  let config := config_of 5 in
  let s := fst (after_lines config [users_schema]) in
  let o := JObject [("type", JString "STATE")] in
  (after_lines config [users_schema] = (s, Ok tt) /\
   loads valueless = Some o /\
   py_getitem o "type" = Ok (JString "STATE") /\
   py_in "value" o = Ok false) /\
  persist_lines config ([users_schema] ++ valueless :: [user "1"]) boot
  = (s, Raise (KeyError (JString "value"))).
Proof.
  intros W config s o.
  assert (H0 : after_lines config [users_schema] = (s, Ok tt))
    by (vm_compute; reflexivity).
  assert (H1 : loads valueless = Some o) by (vm_compute; reflexivity).
  assert (H2 : py_getitem o "type" = Ok (JString "STATE")) by reflexivity.
  assert (H3 : py_in "value" o = Ok false) by reflexivity.
  split; [exact (conj H0 (conj H1 (conj H2 H3))) |].
  apply (state_value_missing config [users_schema] valueless [user "1"] s o
           H0 H1 H2 H3).
Defined.

(** The stream [users] declared twice, the second time with another
    schema. *)
Lemma registry_holds_last_declaration_witness :
  let W := frozen_world 100 in
  let config := config_of 5 in
  let lines := [users_schema; user "1"; bad_schema] in
  let s := fst (after_lines config lines) in
  after_lines config lines = (s, Ok tt) /\
  last_declaration (KStr "users") lines
  = Some (JObject [("type", JInt 5)], JArray [JString "id"]) /\
  schemas s !! KStr "users" = fst <$> last_declaration (KStr "users") lines /\
  key_properties s !! KStr "users" = snd <$> last_declaration (KStr "users") lines /\
  match last_declaration (KStr "users") lines with
  | Some (sch, _) =>
      exists v, validators s !! KStr "users" = Some v /\ Draft4Validator sch = Ok v
  | None => validators s !! KStr "users" = None
  end.
Proof.
  intros W config lines s.
  assert (H : after_lines config lines = (s, Ok tt)) by (vm_compute; reflexivity).
  split; [exact H |]. split; [vm_compute; reflexivity |].
  apply (registry_holds_last_declaration config lines s (KStr "users") H).
Defined.

(** Threshold -1 and the usual first line, a declaration. *)
Lemma negative_threshold_rejects_input_witness :
  let W := frozen_world 100 in
  let config := config_of (-1) in
  max_batch_size config < 0 /\
  exists s e,
    persist_lines config (users_schema :: [user "1"]) boot = (s, Raise e) /\
    requests s = [] /\
    (forall s1, dispatch users_schema started = (s1, Ok tt) ->
       e = UnboundLocalError "schema").
Proof.
  intros W config.
  assert (H : max_batch_size config < 0) by reflexivity.
  split; [exact H |].
  apply (negative_threshold_rejects_input config users_schema [user "1"] H).
Defined.

(** Five records, threshold 1: two announced batches and the final one. *)
Lemma batches_are_numbered_witness :
  let W := frozen_world 100 in
  let config := config_of 1 in
  let lines := [users_schema; user "1"; user "2"; user "3"; user "4"; user "5"] in
  let s := fst (persist_lines config lines boot) in
  persist_lines config lines boot = (s, Ok JNull) /\
  batch_ordinals (stdout s) = [1; 2] /\ length (requests s) = 3%nat /\
  exists k,
    batch_ordinals (stdout s) = map Z.of_nat (seq 1 k) /\
    clock_reads s = S k /\
    (length (requests s) = k \/ length (requests s) = S k) /\
    length (response_bodies (stdout s)) = length (requests s).
Proof.
  intros W config lines s.
  assert (H : persist_lines config lines boot = (s, Ok JNull))
    by (vm_compute; reflexivity).
  split; [exact H |]. split; [vm_compute; reflexivity |].
  split; [vm_compute; reflexivity |].
  apply (batches_are_numbered config lines s JNull H).
Defined.

(** Seven records, threshold 2: two batches of three and one of one. *)
Lemma batch_sizes_witness :
  let W := frozen_world 100 in
  let config := config_of 2 in
  let lines := [users_schema; user "1"; user "2"; user "3"; user "4";
                user "5"; user "6"; user "7"] in
  let s := fst (persist_lines config lines boot) in
  (0 <= max_batch_size config /\
   persist_lines config lines boot = (s, Ok JNull)) /\
  map length (sent s) = [3; 3; 1]%nat /\
  exists full last,
    requests s = full ++ last /\
    List.Forall (full_batch config) full /\
    (last = [] \/
     exists req, last = [req] /\
       1 <= Z.of_nat (length (payload_messages (req_body req)))
         <= max_batch_size config).
Proof.
  intros W config lines s.
  assert (H0 : 0 <= max_batch_size config) by (vm_compute; discriminate).
  assert (H1 : persist_lines config lines boot = (s, Ok JNull))
    by (vm_compute; reflexivity).
  split; [exact (conj H0 H1) |]. split; [vm_compute; reflexivity |].
  apply (batch_sizes config lines s JNull H0 H1).
Defined.

(** The first request of a run of three records, threshold 1. *)
Lemma requests_are_addressed_witness :
  let W := frozen_world 100 in
  let config := config_of 1 in
  let lines := [users_schema; user "1"; user "2"; user "3"] in
  let s := fst (persist_lines config lines boot) in
  let r := snd (persist_lines config lines boot) in
  let req := request_of config
               (JObject [("type", JString "object");
                         ("required", JArray [JString "id"])])
               [operation_for (JObject [("id", JInt 1)]) started;
                {| action := "upsert"; data := JObject [("id", JInt 2)];
                   sequence := 102 |}] in
  (persist_lines config lines boot = (s, r) /\ In req (requests s)) /\
  req_host req = "api.stitchdata.com" /\
  req_path req = "/v2/import/batch" /\
  req_authorization req = "Bearer secret" /\
  payload_table_name (req_body req) = "users".
Proof.
  intros W config lines s r req.
  assert (H0 : persist_lines config lines boot = (s, r)) by (vm_compute; reflexivity).
  assert (H1 : In req (requests s)) by (vm_compute; left; reflexivity).
  split; [exact (conj H0 H1) |].
  apply (requests_are_addressed config lines s r req H0 H1).
Defined.

(** A record of [users] is pending when a record of [orders] ends the
    input: both are sent with the schema of [orders]. *)
Lemma last_record_decides_schema_witness :
  let W := frozen_world 100 in
  let config := config_of 5 in
  let lines := [users_schema; orders_schema; user "1"] in
  let s0 := fst (after_lines config lines) in
  let s := fst (persist_lines config (lines ++ [order]) boot) in
  let o := JObject [("type", JString "RECORD"); ("stream", JString "orders");
                    ("record", JObject [("id", JInt 1)])] in
  (after_lines config lines = (s0, Ok tt) /\
   loads order = Some o /\
   py_getitem o "type" = Ok (JString "RECORD") /\
   persist_lines config (lines ++ [order]) boot = (s, Ok JNull)) /\
  map (fun r => payload_schema (req_body r)) (requests s)
  = [JObject [("type", JString "object")]] /\
  sent s = [[101; 102]] /\
  exists stream k sch rec,
    py_getitem o "stream" = Ok stream /\ py_hash stream = Ok k /\
    py_getitem o "record" = Ok rec /\
    schemas s0 !! k = Some sch /\
    requests s = requests s0 ++
      [request_of config sch (messages s0 ++ [operation_for rec s0])].
Proof.
  intros W config lines s0 s o.
  assert (H0 : after_lines config lines = (s0, Ok tt)) by (vm_compute; reflexivity).
  assert (H1 : loads order = Some o) by (vm_compute; reflexivity).
  assert (H2 : py_getitem o "type" = Ok (JString "RECORD")) by reflexivity.
  assert (H3 : persist_lines config (lines ++ [order]) boot = (s, Ok JNull))
    by (vm_compute; reflexivity).
  split; [exact (conj H0 (conj H1 (conj H2 H3))) |].
  split; [vm_compute; reflexivity |]. split; [vm_compute; reflexivity |].
  apply (last_record_decides_schema config lines order s0 s JNull o H0 H1 H2 H3).
Defined.
